(** * HyperNova gameplay core: hazard zone, weapon and player controller

    A shallow embedding of [src/game/Storm.ts], [src/game/Weapon.ts] and
    [src/game/Player.ts].

    Conventions of the embedding.
    - A TypeScript [number] is an exact rational ([Q]); comparisons are the
      decidable ones of [Q] and [===] on numbers is [Qeq_bool].  Rounding of
      IEEE doubles is outside the model.  Where the source would leave the
      rationals the model says so in its types: a division by zero is [None]
      ([JS.div]) and the reciprocal of a zero fire rate is the value
      [None] of [shootingInterval], read as [+Infinity].
    - Objects are records, methods are functions from the old object to the
      new one; a method that reads the world (ray casts, the clock, the
      camera) takes what it reads as an argument.
    - Rendering state (meshes, shader uniforms, lights that are only drawn)
      is left out; the muzzle flash is kept because [Weapon.update] branches
      on its visibility. *)

From Stdlib Require Import QArith Qabs Qminmax Qround Qreals Reals.
From Stdlib Require Import Lia Lra Lqa List Bool String.
Import ListNotations.
Open Scope Q_scope.

(** ** Numbers and vectors *)

Module JS.

(** [a < b], [a <= b], [a > b], [a >= b] and [a === b] on numbers. *)
Definition ltb (a b : Q) : bool := negb (Qle_bool b a).
Definition leb (a b : Q) : bool := Qle_bool a b.
Definition gtb (a b : Q) : bool := ltb b a.
Definition geb (a b : Q) : bool := Qle_bool b a.
Definition eqb (a b : Q) : bool := Qeq_bool a b.

(** [Number(b)] for a boolean. *)
Definition Number (b : bool) : Q := if b then 1 else 0.

(** [a / b]; a zero divisor gives an infinity or NaN, which is not a
    rational. *)
Definition div (a b : Q) : option Q :=
  if Qeq_bool b 0 then None else Some (a / b).

(** [Math.sqrt(d2) > r] for [d2 >= 0], decided on the squares. *)
Definition sqrt_gt (d2 r : Q) : bool := ltb r 0 || ltb (r * r) d2.

(** Sequencing of computations that may leave the model. *)
Definition bind {A B : Type} (m : option A) (k : A -> option B) : option B :=
  match m with
  | Some a => k a
  | None => None
  end.

End JS.

Notation "x <- m ;; k" := (JS.bind m (fun x => k))
  (at level 61, m at next level, right associativity).

Module THREE.

Record Vector2 : Type := mkV2 { x2 : Q; y2 : Q }.
Record Vector3 : Type := mkV3 { x : Q; y : Q; z : Q }.

(** [Vector2.distanceToSquared]. *)
Definition distanceToSquared (a b : Vector2) : Q :=
  let dx := x2 a - x2 b in
  let dy := y2 a - y2 b in
  dx * dx + dy * dy.

(** [Vector3.dot]. *)
Definition dot (a b : Vector3) : Q := x a * x b + y a * y b + z a * z b.

(** [Vector3.lengthSq]. *)
Definition lengthSq (a : Vector3) : Q := dot a a.

(** [Vector3.multiplyScalar]. *)
Definition multiplyScalar (a : Vector3) (s : Q) : Vector3 :=
  mkV3 (x a * s) (y a * s) (z a * s).

(** [Vector3.addScaledVector]. *)
Definition addScaledVector (a v : Vector3) (s : Q) : Vector3 :=
  mkV3 (x a + x v * s) (y a + y v * s) (z a + z v * s).

End THREE.

(** ** Storm.ts *)

Module Storm.
Import THREE.

Record StormConfig : Type := mkConfig {
  initialRadius : Q;
  finalRadius : Q;
  shrinkDuration : Q;
  pauseDuration : Q;
  damage : Q
}.

Inductive Phase : Type := shrinking | paused.

Record t : Type := mk {
  radius : Q;
  targetRadius : Q;
  center : Vector2;
  config : StormConfig;
  phase : Phase;
  timeRemaining : Q;
  nextPhaseTime : Q
}.

(** The configuration written in the constructor. *)
Definition defaultConfig : StormConfig :=
  {| initialRadius := 200;
     finalRadius := 20;
     shrinkDuration := 60;
     pauseDuration := 30;
     damage := 2 |}.

(** The constructor's assignments, for a given configuration. *)
Definition init (c : StormConfig) : t :=
  {| radius := initialRadius c;
     targetRadius := initialRadius c;
     center := mkV2 0 0;
     config := c;
     phase := paused;
     timeRemaining := pauseDuration c;
     nextPhaseTime := pauseDuration c |}.

(** [new Storm(scene)]. *)
Definition new : t := init defaultConfig.

(** Lines 116-131: the phase timer and the phase switch. *)
Definition tick_phase (s : t) (delta : Q) : t :=
  let tr := timeRemaining s - delta in
  if JS.leb tr 0 then
    match phase s with
    | paused =>
        {| radius := radius s;
           targetRadius := Qmax (radius s * 0.7) (finalRadius (config s));
           center := center s;
           config := config s;
           phase := shrinking;
           timeRemaining := shrinkDuration (config s);
           nextPhaseTime := shrinkDuration (config s) |}
    | shrinking =>
        {| radius := radius s;
           targetRadius := targetRadius s;
           center := center s;
           config := config s;
           phase := paused;
           timeRemaining := pauseDuration (config s);
           nextPhaseTime := pauseDuration (config s) |}
    end
  else
    {| radius := radius s;
       targetRadius := targetRadius s;
       center := center s;
       config := config s;
       phase := phase s;
       timeRemaining := tr;
       nextPhaseTime := nextPhaseTime s |}.

(** Lines 134-142: the radius while shrinking. *)
Definition shrink (s : t) (delta : Q) : option t :=
  match phase s with
  | shrinking =>
      q <- JS.div (radius s - targetRadius s) (timeRemaining s) ;;
      let shrinkAmount := delta * q in
      Some {| radius := Qmax (radius s - shrinkAmount) (targetRadius s);
              targetRadius := targetRadius s;
              center := center s;
              config := config s;
              phase := phase s;
              timeRemaining := timeRemaining s;
              nextPhaseTime := nextPhaseTime s |}
  | paused => Some s
  end.

(** Lines 145-146: is the player outside the zone? *)
Definition isOutsideStorm (s : t) (playerPosition : Vector3) : bool :=
  JS.sqrt_gt
    (distanceToSquared (mkV2 (x playerPosition) (z playerPosition)) (center s))
    (radius s).

(** [Storm.update(delta, playerPosition)]: the new storm and the damage
    returned. *)
Definition update (s : t) (delta : Q) (playerPosition : Vector3)
  : option (t * Q) :=
  s' <- shrink (tick_phase s delta) delta ;;
  Some (s', if isOutsideStorm s' playerPosition
            then damage (config s') * delta
            else 0).

(** A sequence of [update] calls, first call first. *)
Fixpoint run (s : t) (calls : list (Q * Vector3)) : option t :=
  match calls with
  | [] => Some s
  | (delta, pos) :: rest =>
      r <- update s delta pos ;;
      run (fst r) rest
  end.

Definition getTimeRemaining (s : t) : Q := timeRemaining s.
Definition getNextPhaseTime (s : t) : Q := nextPhaseTime s.
Definition getCurrentPhase (s : t) : Phase := phase s.
Definition getRadius (s : t) : Q := radius s.

End Storm.

(** ** Weapon.ts *)

Module Weapon.

Record WeaponConfig : Type := mkConfig {
  name : string;
  damage : Q;
  fireRate : Q;
  cfg_ammo : Q;
  maxAmmo : Q;
  cfg_reserveAmmo : Q;
  maxReserveAmmo : Q;
  reloadTime : Q;
  isAutomatic : bool
}.

(** [model], [muzzleFlash] and [muzzleFlashMesh] are [null] ([None]) until
    [init] has loaded the model; when present only their [visible] flag
    matters.  [shootingInterval] is [None] for [+Infinity]. *)
Record t : Type := mk {
  config : WeaponConfig;
  model : option bool;
  ammo : Q;
  reserveAmmo : Q;
  isReloading : bool;
  lastShotTime : Q;
  shootingInterval : option Q;
  muzzleFlash : option bool;
  muzzleFlashMesh : option bool
}.

(** [new Weapon(config, ...)]. *)
Definition new (c : WeaponConfig) : t :=
  {| config := c;
     model := None;
     ammo := cfg_ammo c;
     reserveAmmo := cfg_reserveAmmo c;
     isReloading := false;
     lastShotTime := 0;
     shootingInterval := JS.div 1 (fireRate c);
     muzzleFlash := None;
     muzzleFlashMesh := None |}.

(** [init()]: [loaded] tells whether [loadModel] gave a model; a failed
    load leaves the weapon as constructed. *)
Definition init (w : t) (loaded : bool) : t :=
  if loaded then
    {| config := config w;
       model := Some false;
       ammo := ammo w;
       reserveAmmo := reserveAmmo w;
       isReloading := isReloading w;
       lastShotTime := lastShotTime w;
       shootingInterval := shootingInterval w;
       muzzleFlash := Some false;
       muzzleFlashMesh := Some false |}
  else w.

Definition set_lastShotTime (w : t) (v : Q) : t :=
  {| config := config w; model := model w; ammo := ammo w;
     reserveAmmo := reserveAmmo w; isReloading := isReloading w;
     lastShotTime := v; shootingInterval := shootingInterval w;
     muzzleFlash := muzzleFlash w; muzzleFlashMesh := muzzleFlashMesh w |}.

Definition set_model (w : t) (v : option bool) : t :=
  {| config := config w; model := v; ammo := ammo w;
     reserveAmmo := reserveAmmo w; isReloading := isReloading w;
     lastShotTime := lastShotTime w; shootingInterval := shootingInterval w;
     muzzleFlash := muzzleFlash w; muzzleFlashMesh := muzzleFlashMesh w |}.

(** [flash.visible = v] guarded by [if (this.muzzleFlash)], with the mesh
    guarded by its own null test. *)
Definition set_flash_visible (w : t) (v : bool) : t :=
  match muzzleFlash w with
  | Some _ =>
      {| config := config w; model := model w; ammo := ammo w;
         reserveAmmo := reserveAmmo w; isReloading := isReloading w;
         lastShotTime := lastShotTime w;
         shootingInterval := shootingInterval w;
         muzzleFlash := Some v;
         muzzleFlashMesh := match muzzleFlashMesh w with
                            | Some _ => Some v
                            | None => None
                            end |}
  | None => w
  end.

(** [completeReload()]. *)
Definition completeReload (w : t) : t :=
  let ammoNeeded := maxAmmo (config w) - ammo w in
  let ammoToAdd := Qmin ammoNeeded (reserveAmmo w) in
  {| config := config w; model := model w;
     ammo := ammo w + ammoToAdd;
     reserveAmmo := reserveAmmo w - ammoToAdd;
     isReloading := false;
     lastShotTime := lastShotTime w;
     shootingInterval := shootingInterval w;
     muzzleFlash := muzzleFlash w; muzzleFlashMesh := muzzleFlashMesh w |}.

(** [reload()]. *)
Definition reload (w : t) : t :=
  if isReloading w
     || JS.eqb (ammo w) (maxAmmo (config w))
     || JS.leb (reserveAmmo w) 0
  then w
  else
    {| config := config w; model := model w; ammo := ammo w;
       reserveAmmo := reserveAmmo w;
       isReloading := true;
       lastShotTime := 0;
       shootingInterval := shootingInterval w;
       muzzleFlash := muzzleFlash w; muzzleFlashMesh := muzzleFlashMesh w |}.

(** Lines 95-101 of [update]: reload progress. *)
Definition update_reload (w : t) (delta : Q) : t :=
  if isReloading w then
    let w1 := set_lastShotTime w (lastShotTime w + delta) in
    if JS.geb (lastShotTime w1) (reloadTime (config w1))
    then completeReload w1
    else w1
  else w.

(** Lines 104-111 of [update]: the muzzle flash is hidden after 0.05s. *)
Definition update_flash (w : t) (delta : Q) : t :=
  match muzzleFlash w with
  | Some true =>
      let w1 := set_lastShotTime w (lastShotTime w + delta) in
      if JS.gtb (lastShotTime w1) 0.05
      then set_flash_visible w1 false
      else w1
  | _ => w
  end.

(** [update(delta)]. *)
Definition update (w : t) (delta : Q) : t :=
  update_flash (update_reload w delta) delta.

(** First entry of [raycaster.intersectObjects(scene.children, true)]:
    whether [userData.isEnemy] holds for the object hit. *)
Record Hit : Type := mkHit { isEnemy : bool }.

(** What a shot does outside the weapon. *)
Inductive Effect : Type :=
| NoEffect
| EnemyTakeDamage (amount : Q)
| ImpactEffect.

(** [now - lastShotTime < shootingInterval]. *)
Definition inCooldown (w : t) (now : Q) : bool :=
  match shootingInterval w with
  | Some i => JS.ltb (now - lastShotTime w) i
  | None => true
  end.

(** The shot is let through by both guards of [shoot]. *)
Definition fires (w : t) (now : Q) : bool :=
  negb (isReloading w || JS.leb (ammo w) 0) && negb (inCooldown w now).

(** [shoot()]; [now] is [performance.now() / 1000] and [intersects] the
    result of the hit scan. *)
Definition shoot (w : t) (now : Q) (intersects : list Hit) : t * Effect :=
  if isReloading w || JS.leb (ammo w) 0 then
    ((if JS.leb (ammo w) 0 then reload w else w), NoEffect)
  else if inCooldown w now then (w, NoEffect)
  else
    let w1 :=
      {| config := config w; model := model w;
         ammo := ammo w - 1;
         reserveAmmo := reserveAmmo w;
         isReloading := isReloading w;
         lastShotTime := now;
         shootingInterval := shootingInterval w;
         muzzleFlash := muzzleFlash w;
         muzzleFlashMesh := muzzleFlashMesh w |} in
    let w2 := set_flash_visible w1 true in
    match intersects with
    | hit :: _ =>
        (w2, if isEnemy hit
             then EnemyTakeDamage (damage (config w))
             else ImpactEffect)
    | [] => (w2, NoEffect)
    end.

(** [show()] and [hide()]. *)
Definition show (w : t) : t :=
  match model w with
  | Some _ => set_model w (Some true)
  | None => w
  end.

Definition hide (w : t) : t :=
  match model w with
  | Some _ => set_model w (Some false)
  | None => w
  end.

Definition getAmmo (w : t) : Q := ammo w.
Definition getMaxAmmo (w : t) : Q := maxAmmo (config w).
Definition getReserveAmmo (w : t) : Q := reserveAmmo w.
Definition getMaxReserveAmmo (w : t) : Q := maxReserveAmmo (config w).
Definition isCurrentlyReloading (w : t) : bool := isReloading w.

(** [addAmmo(amount)]. *)
Definition addAmmo (w : t) (amount : Q) : t :=
  {| config := config w; model := model w; ammo := ammo w;
     reserveAmmo := Qmin (maxReserveAmmo (config w)) (reserveAmmo w + amount);
     isReloading := isReloading w;
     lastShotTime := lastShotTime w;
     shootingInterval := shootingInterval w;
     muzzleFlash := muzzleFlash w; muzzleFlashMesh := muzzleFlashMesh w |}.

End Weapon.

(** ** Player.ts *)

Module Player.
Import THREE.

(** The private fields that are assigned once, at their declaration. *)
Definition gravity : Q := 9.8.
Definition jumpVelocity : Q := 5.
Definition walkSpeed : Q := 5.
Definition sprintSpeed : Q := 10.
Definition standingHeight : Q := 2.
Definition crouchingHeight : Q := 1.
Definition collisionDistance : Q := 1.
Definition playerRadius : Q := 0.5.
Definition climbSpeed : Q := 3.

(** [position] is [controls.getObject().position], the position every
    method reads and writes. *)
Record t : Type := mk {
  moveForward : bool;
  moveBackward : bool;
  moveLeft : bool;
  moveRight : bool;
  sprint : bool;
  velocity : Vector3;
  direction : Vector3;
  position : Vector3;
  isCrouching : bool;
  isJumping : bool;
  health : Q;
  maxHealth : Q;
  armor : Q;
  maxArmor : Q;
  weapons : list Weapon.t;
  currentWeaponIndex : Z;
  isClimbing : bool
}.

(** [new Player(controls, camera)], before [initWeapons]. *)
Definition new : t :=
  {| moveForward := false; moveBackward := false;
     moveLeft := false; moveRight := false; sprint := false;
     velocity := mkV3 0 0 0;
     direction := mkV3 0 0 0;
     position := mkV3 30 2 30;
     isCrouching := false; isJumping := false;
     health := 100; maxHealth := 100;
     armor := 0; maxArmor := 100;
     weapons := [];
     currentWeaponIndex := 0%Z;
     isClimbing := false |}.

Definition set_velocity (p : t) (v : Vector3) : t :=
  mk (moveForward p) (moveBackward p) (moveLeft p) (moveRight p) (sprint p)
     v (direction p) (position p) (isCrouching p) (isJumping p)
     (health p) (maxHealth p) (armor p) (maxArmor p)
     (weapons p) (currentWeaponIndex p) (isClimbing p).

Definition set_direction (p : t) (v : Vector3) : t :=
  mk (moveForward p) (moveBackward p) (moveLeft p) (moveRight p) (sprint p)
     (velocity p) v (position p) (isCrouching p) (isJumping p)
     (health p) (maxHealth p) (armor p) (maxArmor p)
     (weapons p) (currentWeaponIndex p) (isClimbing p).

Definition set_position (p : t) (v : Vector3) : t :=
  mk (moveForward p) (moveBackward p) (moveLeft p) (moveRight p) (sprint p)
     (velocity p) (direction p) v (isCrouching p) (isJumping p)
     (health p) (maxHealth p) (armor p) (maxArmor p)
     (weapons p) (currentWeaponIndex p) (isClimbing p).

Definition set_isCrouching (p : t) (b : bool) : t :=
  mk (moveForward p) (moveBackward p) (moveLeft p) (moveRight p) (sprint p)
     (velocity p) (direction p) (position p) b (isJumping p)
     (health p) (maxHealth p) (armor p) (maxArmor p)
     (weapons p) (currentWeaponIndex p) (isClimbing p).

Definition set_isJumping (p : t) (b : bool) : t :=
  mk (moveForward p) (moveBackward p) (moveLeft p) (moveRight p) (sprint p)
     (velocity p) (direction p) (position p) (isCrouching p) b
     (health p) (maxHealth p) (armor p) (maxArmor p)
     (weapons p) (currentWeaponIndex p) (isClimbing p).

Definition set_health (p : t) (h : Q) : t :=
  mk (moveForward p) (moveBackward p) (moveLeft p) (moveRight p) (sprint p)
     (velocity p) (direction p) (position p) (isCrouching p) (isJumping p)
     h (maxHealth p) (armor p) (maxArmor p)
     (weapons p) (currentWeaponIndex p) (isClimbing p).

Definition set_armor (p : t) (a : Q) : t :=
  mk (moveForward p) (moveBackward p) (moveLeft p) (moveRight p) (sprint p)
     (velocity p) (direction p) (position p) (isCrouching p) (isJumping p)
     (health p) (maxHealth p) a (maxArmor p)
     (weapons p) (currentWeaponIndex p) (isClimbing p).

Definition set_weapons (p : t) (ws : list Weapon.t) : t :=
  mk (moveForward p) (moveBackward p) (moveLeft p) (moveRight p) (sprint p)
     (velocity p) (direction p) (position p) (isCrouching p) (isJumping p)
     (health p) (maxHealth p) (armor p) (maxArmor p)
     ws (currentWeaponIndex p) (isClimbing p).

Definition set_currentWeaponIndex (p : t) (i : Z) : t :=
  mk (moveForward p) (moveBackward p) (moveLeft p) (moveRight p) (sprint p)
     (velocity p) (direction p) (position p) (isCrouching p) (isJumping p)
     (health p) (maxHealth p) (armor p) (maxArmor p)
     (weapons p) i (isClimbing p).

Definition set_isClimbing (p : t) (b : bool) : t :=
  mk (moveForward p) (moveBackward p) (moveLeft p) (moveRight p) (sprint p)
     (velocity p) (direction p) (position p) (isCrouching p) (isJumping p)
     (health p) (maxHealth p) (armor p) (maxArmor p)
     (weapons p) (currentWeaponIndex p) b.

(** The key handlers of [Game] assign the five public flags. *)
Definition setMovementFlags (p : t) (forward backward left right spr : bool)
  : t :=
  mk forward backward left right spr
     (velocity p) (direction p) (position p) (isCrouching p) (isJumping p)
     (health p) (maxHealth p) (armor p) (maxArmor p)
     (weapons p) (currentWeaponIndex p) (isClimbing p).

Definition set_velocity_y (p : t) (vy : Q) : t :=
  set_velocity p (mkV3 (x (velocity p)) vy (z (velocity p))).

Definition set_position_y (p : t) (py : Q) : t :=
  set_position p (mkV3 (x (position p)) py (z (position p))).

(** One entry of [raycaster.intersectObjects(...)]: its distance, the
    [userData.isClimbable] of the object and the object's world position. *)
Record Intersection : Type := mkIntersection {
  distance : Q;
  isClimbable : bool;
  objectWorldPosition : Vector3
}.

(** What [update] reads of the world: the intersections, nearest first, of
    a ray given by origin and direction with [getCollidableObjects()]. *)
Record World : Type := mkWorld {
  intersectObjects : Vector3 -> Vector3 -> list Intersection
}.

(** What [update] reads of the camera: the vector of lines 332-335 (the
    camera's forward axis made horizontal and normalized) and the two axes
    along which [controls.moveRight] and [controls.moveForward] translate. *)
Record Camera : Type := mkCamera {
  forward : Vector3;
  rightAxis : Vector3;
  forwardAxis : Vector3
}.

(** The stance height: [(isCrouching ? crouchingHeight : standingHeight)]. *)
Definition stanceHeight (p : t) : Q :=
  if isCrouching p then crouchingHeight else standingHeight.

(** [isOnGround(world)]. *)
Definition isOnGround (p : t) : bool :=
  JS.leb (y (position p)) (stanceHeight p / 2).

(** The loop of lines 341-348. *)
Definition canClimb (intersects : list Intersection) : bool :=
  existsb (fun i => JS.ltb (distance i) 1.5 && isClimbable i) intersects.

(** [checkClimbing(world)].  The snap to the ladder is under
    [if (!this.isClimbing)] right after [this.isClimbing = true]. *)
Definition checkClimbing (p : t) (world : World) (camera : Camera) : t :=
  let intersects := intersectObjects world (position p) (forward camera) in
  let p1 :=
    if canClimb intersects && moveForward p then
      let p' := set_isClimbing p true in
      if negb (isClimbing p') then
        match intersects with
        | i :: _ =>
            let ladderPos := objectWorldPosition i in
            set_position p'
              (mkV3 (x ladderPos) (y (position p')) (z ladderPos - 1))
        | [] => p'
        end
      else p'
    else set_isClimbing p false in
  if isClimbing p1 then
    set_velocity_y p1
      (if moveForward p1 then climbSpeed
       else if moveBackward p1 then - climbSpeed
       else 0)
  else p1.

(** One iteration of the loop of [checkCollisions]. *)
Definition collide (world : World) (pos : Vector3) (vel : Q * Q)
    (dir : Vector3) : Q * Q :=
  let '(velocityX, velocityZ) := vel in
  match intersectObjects world pos dir with
  | i :: _ =>
      if JS.ltb (distance i) (playerRadius + collisionDistance) then
        if JS.gtb (dot dir (mkV3 velocityX 0 velocityZ)) 0 then
          ((if JS.gtb (Qabs (x dir)) 0 then 0 else velocityX),
           (if JS.gtb (Qabs (z dir)) 0 then 0 else velocityZ))
        else vel
      else vel
  | [] => vel
  end.

(** [checkCollisions(world, position, velocityX, velocityZ)]. *)
Definition checkCollisions (world : World) (pos : Vector3)
    (velocityX velocityZ : Q) : Q * Q :=
  let directions :=
    [mkV3 1 0 0; mkV3 (-1) 0 0; mkV3 0 0 1; mkV3 0 0 (-1)] in
  fold_left (collide world pos) directions (velocityX, velocityZ).

(** The gravity step of lines 128-135. *)
Definition applyGravity (p : t) (delta : Q) : t :=
  if negb (isClimbing p) then
    if negb (isOnGround p) then
      set_velocity_y p (y (velocity p) - gravity * delta)
    else if JS.ltb (y (velocity p)) 0 then
      set_isJumping (set_velocity_y p (-0.1)) false
    else p
  else p.

(** The floor clamp of lines 177-180. *)
Definition clampToGround (p : t) : t :=
  if JS.ltb (y (position p)) (stanceHeight p / 2) then
    set_velocity_y (set_position_y p (stanceHeight p / 2)) 0
  else p.

(** [this.weapons[this.currentWeaponIndex]]; [None] where the source reads
    [undefined]. *)
Definition currentWeapon (p : t) : option Weapon.t :=
  if (currentWeaponIndex p <? 0)%Z then None
  else nth_error (weapons p) (Z.to_nat (currentWeaponIndex p)).

(** The weapon list with entry [i] replaced. *)
Fixpoint replace (ws : list Weapon.t) (i : nat) (w : Weapon.t)
  : list Weapon.t :=
  match ws, i with
  | [], _ => []
  | _ :: rest, O => w :: rest
  | w0 :: rest, S j => w0 :: replace rest j w
  end.

(** A method call on the current weapon, as guarded at lines 183 and 238;
    calling a method of [undefined] throws ([None]). *)
Definition withCurrentWeapon (p : t) (f : Weapon.t -> Weapon.t) : option t :=
  match weapons p with
  | [] => Some p
  | _ :: _ =>
      if (currentWeaponIndex p >=? 0)%Z then
        w <- currentWeapon p ;;
        Some (set_weapons p
                (replace (weapons p) (Z.to_nat (currentWeaponIndex p)) (f w)))
      else Some p
  end.

Section Update.

(** [Math.sqrt] gives a double, a rational; which one is left open. *)
Variable Math_sqrt : Q -> Q.

(** [Vector3.normalize]: [divideScalar(length() || 1)]. *)
Definition normalize (v : Vector3) : Vector3 :=
  let len := Math_sqrt (lengthSq v) in
  let s := if JS.eqb len 0 then 1 else len in
  multiplyScalar v (1 / s).

(** [update(delta, world)]. *)
Definition update (p : t) (delta : Q) (world : World) (camera : Camera)
  : option t :=
  let p := checkClimbing p world camera in
  let p := applyGravity p delta in
  let p :=
    set_direction p
      (normalize
         (mkV3 (JS.Number (moveLeft p) - JS.Number (moveRight p))
               (y (direction p))
               (JS.Number (moveBackward p) - JS.Number (moveForward p)))) in
  let speed := if sprint p then sprintSpeed else walkSpeed in
  let actualSpeed := if isCrouching p then speed * 0.5 else speed in
  let intendedVelocityZ :=
    if moveForward p || moveBackward p
    then - z (direction p) * actualSpeed else 0 in
  let p :=
    if moveForward p || moveBackward p then
      if isClimbing p && moveForward p then set_velocity_y p climbSpeed
      else if isClimbing p then set_velocity_y p 0
      else p
    else p in
  let intendedVelocityX :=
    if moveLeft p || moveRight p
    then - x (direction p) * actualSpeed else 0 in
  let currentPosition := position p in
  let '(vx, vz) :=
    checkCollisions world currentPosition
      intendedVelocityX intendedVelocityZ in
  let p := set_velocity p (mkV3 vx (y (velocity p)) vz) in
  let p := set_position_y p (y (position p) + y (velocity p) * delta) in
  let p :=
    set_position p
      (addScaledVector (position p) (rightAxis camera)
         (x (velocity p) * delta)) in
  let p :=
    set_position p
      (addScaledVector (position p) (forwardAxis camera)
         (z (velocity p) * delta)) in
  let p := clampToGround p in
  withCurrentWeapon p (fun w => Weapon.update w delta).

End Update.

(** [jump()]. *)
Definition jump (p : t) : t := set_velocity_y p jumpVelocity.

(** [toggleCrouch()]. *)
Definition toggleCrouch (p : t) : t :=
  let p := set_isCrouching p (negb (isCrouching p)) in
  let heightDifference := standingHeight - crouchingHeight in
  if isCrouching p
  then set_position_y p (y (position p) - heightDifference / 2)
  else set_position_y p (y (position p) + heightDifference / 2).

(** [shoot()]: the new player and what the shot did, if anything. *)
Definition shoot (p : t) (now : Q) (intersects : list Weapon.Hit)
  : option (t * Weapon.Effect) :=
  match weapons p with
  | [] => Some (p, Weapon.NoEffect)
  | _ :: _ =>
      if (currentWeaponIndex p >=? 0)%Z then
        w <- currentWeapon p ;;
        let '(w', e) := Weapon.shoot w now intersects in
        Some (set_weapons p
                (replace (weapons p) (Z.to_nat (currentWeaponIndex p)) w'),
              e)
      else Some (p, Weapon.NoEffect)
  end.

(** [switchWeapon(index)]. *)
Definition switchWeapon (p : t) (index : Z) : t :=
  if (index >=? 0)%Z && (index <? Z.of_nat (List.length (weapons p)))%Z then
    let p :=
      if (currentWeaponIndex p >=? 0)%Z
         && (currentWeaponIndex p <? Z.of_nat (List.length (weapons p)))%Z
      then
        match currentWeapon p with
        | Some w =>
            set_weapons p
              (replace (weapons p) (Z.to_nat (currentWeaponIndex p))
                 (Weapon.hide w))
        | None => p
        end
      else p in
    let p := set_currentWeaponIndex p index in
    match currentWeapon p with
    | Some w =>
        set_weapons p
          (replace (weapons p) (Z.to_nat (currentWeaponIndex p))
             (Weapon.show w))
    | None => p
    end
  else p.

(** [takeDamage(amount)]. *)
Definition takeDamage (p : t) (amount : Q) : t :=
  let '(p, amount) :=
    if JS.gtb (armor p) 0 then
      let armorDamage := Qmin (armor p) (amount * 0.5) in
      (set_armor p (armor p - armorDamage), amount - armorDamage)
    else (p, amount) in
  set_health p (Qmax 0 (health p - amount)).


(** [addArmor(amount)]. *)
Definition addArmor (p : t) (amount : Q) : t :=
  set_armor p (Qmin (maxArmor p) (armor p + amount)).

(** [addShield()]. *)
Definition addShield (p : t) : t := set_armor p (armor p + 50).

(** [pickUpPowerUp(powerUp)]; [powerUpType] is [powerUp.getType()]. *)
Definition pickUpPowerUp (p : t) (powerUpType : string) : t :=
  if String.eqb powerUpType "shield"%string then addShield p else p.

Definition getCurrentWeapon (p : t) : option Weapon.t :=
  match weapons p with
  | [] => None
  | _ :: _ =>
      if (currentWeaponIndex p >=? 0)%Z then currentWeapon p else None
  end.

Definition getHealth (p : t) : Q := health p.
Definition getMaxHealth (p : t) : Q := maxHealth p.
Definition getArmor (p : t) : Q := armor p.
Definition getMaxArmor (p : t) : Q := maxArmor p.
Definition getPosition (p : t) : Vector3 := position p.

(** The three weapons of [initWeapons]. *)
Definition assaultRifle : Weapon.WeaponConfig :=
  Weapon.mkConfig "Assault Rifle"%string 20 10 30 30 120 240 2 true.
Definition shotgun : Weapon.WeaponConfig :=
  Weapon.mkConfig "Shotgun"%string 80 1 8 8 32 64 3 false.
Definition pistol : Weapon.WeaponConfig :=
  Weapon.mkConfig "Pistol"%string 15 3 12 12 48 96 1.5 false.

(** [initWeapons(assetLoader, scene)]; [loaded] tells, weapon by weapon,
    whether its model could be loaded. *)
Definition initWeapons (p : t) (loaded : bool * bool * bool) : t :=
  let '(l1, l2, l3) := loaded in
  let p :=
    set_weapons p
      (weapons p ++
         [Weapon.init (Weapon.new assaultRifle) l1;
          Weapon.init (Weapon.new shotgun) l2;
          Weapon.init (Weapon.new pistol) l3]) in
  switchWeapon p 0.

End Player.

(** ** Game (main.ts): the frame loop and the input handlers *)

Module Game.

Record t : Type := mk {
  player : Player.t;
  storm : Storm.t;
  isGameRunning : bool
}.

(** The game once [init()] has run: the three weapons are in the inventory
    and the storm is new.  The pointer is not locked yet. *)
Definition init (loaded : bool * bool * bool) : t :=
  {| player := Player.initWeapons Player.new loaded;
     storm := Storm.new;
     isGameRunning := false |}.

Definition set_player (g : t) (p : Player.t) : t :=
  {| player := p; storm := storm g; isGameRunning := isGameRunning g |}.

(** The [lock] and [unlock] listeners of the controls. *)
Definition onLock (g : t) : t :=
  {| player := player g; storm := storm g; isGameRunning := true |}.

Definition onUnlock (g : t) : t :=
  {| player := player g; storm := storm g; isGameRunning := false |}.

(** The [mousedown] listener; [button] is [event.button]. *)
Definition onMouseDown (g : t) (button : Z) (now : Q)
    (intersects : list Weapon.Hit) : option t :=
  if isGameRunning g && (button =? 0)%Z then
    r <- Player.shoot (player g) now intersects ;;
    Some (set_player g (fst r))
  else Some g.

(** [onKeyDown]; [code] is [event.code].  For the digit keys the weapon
    index is [parseInt(event.code.charAt(5)) - 1]. *)
Definition onKeyDown (g : t) (code : string) : t :=
  if negb (isGameRunning g) then g
  else
    let p := player g in
    if String.eqb code "KeyW" then
      set_player g
        (Player.setMovementFlags p true (Player.moveBackward p)
           (Player.moveLeft p) (Player.moveRight p) (Player.sprint p))
    else if String.eqb code "KeyS" then
      set_player g
        (Player.setMovementFlags p (Player.moveForward p) true
           (Player.moveLeft p) (Player.moveRight p) (Player.sprint p))
    else if String.eqb code "KeyA" then
      set_player g
        (Player.setMovementFlags p (Player.moveForward p)
           (Player.moveBackward p) true (Player.moveRight p) (Player.sprint p))
    else if String.eqb code "KeyD" then
      set_player g
        (Player.setMovementFlags p (Player.moveForward p)
           (Player.moveBackward p) (Player.moveLeft p) true (Player.sprint p))
    else if String.eqb code "Space" then set_player g (Player.jump p)
    else if String.eqb code "ShiftLeft" then
      set_player g
        (Player.setMovementFlags p (Player.moveForward p)
           (Player.moveBackward p) (Player.moveLeft p) (Player.moveRight p)
           true)
    else if String.eqb code "KeyC" then set_player g (Player.toggleCrouch p)
    else if String.eqb code "Digit1" then
      set_player g (Player.switchWeapon p (1 - 1))
    else if String.eqb code "Digit2" then
      set_player g (Player.switchWeapon p (2 - 1))
    else if String.eqb code "Digit3" then
      set_player g (Player.switchWeapon p (3 - 1))
    else g.

(** [onKeyUp]. *)
Definition onKeyUp (g : t) (code : string) : t :=
  if negb (isGameRunning g) then g
  else
    let p := player g in
    if String.eqb code "KeyW" then
      set_player g
        (Player.setMovementFlags p false (Player.moveBackward p)
           (Player.moveLeft p) (Player.moveRight p) (Player.sprint p))
    else if String.eqb code "KeyS" then
      set_player g
        (Player.setMovementFlags p (Player.moveForward p) false
           (Player.moveLeft p) (Player.moveRight p) (Player.sprint p))
    else if String.eqb code "KeyA" then
      set_player g
        (Player.setMovementFlags p (Player.moveForward p)
           (Player.moveBackward p) false (Player.moveRight p) (Player.sprint p))
    else if String.eqb code "KeyD" then
      set_player g
        (Player.setMovementFlags p (Player.moveForward p)
           (Player.moveBackward p) (Player.moveLeft p) false (Player.sprint p))
    else if String.eqb code "ShiftLeft" then
      set_player g
        (Player.setMovementFlags p (Player.moveForward p)
           (Player.moveBackward p) (Player.moveLeft p) (Player.moveRight p)
           false)
    else g.

(** [animate()] without the drawing: [delta] is [clock.getDelta()]; the
    player is updated, then the storm with the player's new position, and
    the storm's damage is applied when it is positive. *)
Definition animate (Math_sqrt : Q -> Q) (g : t) (delta : Q)
    (world : Player.World) (camera : Player.Camera) : option t :=
  if isGameRunning g then
    p1 <- Player.update Math_sqrt (player g) delta world camera ;;
    r <- Storm.update (storm g) delta (Player.position p1) ;;
    let stormDamage := snd r in
    let p2 :=
      if JS.gtb stormDamage 0 then Player.takeDamage p1 stormDamage else p1 in
    Some {| player := p2; storm := fst r; isGameRunning := true |}
  else Some g.

End Game.

(** ** MiniMap.ts *)

Module MiniMap.
Import THREE.

Record t : Type := mk {
  canvasWidth : Q;
  canvasHeight : Q;
  worldSize : Q;
  mapScale : Q
}.

(** The constructor: a 200 by 200 canvas for a world of size 200; the
    scale is [canvas.width / worldSize], a quotient of non-zero constants. *)
Definition new : t :=
  {| canvasWidth := 200;
     canvasHeight := 200;
     worldSize := 200;
     mapScale := 200 / 200 |}.

(** Lines 49-51 of [update]: where the player indicator is put. *)
Definition playerIndicator (m : t) (playerPos : Vector3) : Vector2 :=
  mkV2 ((x playerPos + worldSize m / 2) * mapScale m)
       ((z playerPos + worldSize m / 2) * mapScale m).

(** Lines 62-63 of [drawStorm]: the centre and the radius of the circle
    drawn for the storm. *)
Definition stormCircle (m : t) (storm : Storm.t) : option (Vector2 * Q) :=
  q <- JS.div (Storm.getRadius storm) (worldSize m) ;;
  Some (mkV2 (canvasWidth m / 2) (canvasHeight m / 2), q * canvasWidth m).

(** The pulse of lines 80-86 is drawn while the storm shrinks. *)
Definition drawsPulse (storm : Storm.t) : bool :=
  match Storm.getCurrentPhase storm with
  | Storm.shrinking => true
  | Storm.paused => false
  end.

End MiniMap.

(** ** UI.ts *)

Module UI.

(** [updateStormTimer]: the whole seconds shown, [Math.ceil] of the time
    remaining. *)
Definition stormTimerSeconds (storm : Storm.t) : Z :=
  Qceiling (Storm.getTimeRemaining storm).

Definition stormTimerLabel (storm : Storm.t) : string :=
  match Storm.getCurrentPhase storm with
  | Storm.paused => "Storm shrinks in: "
  | Storm.shrinking => "Storm shrinking: "
  end.

(** The [warning] class is on when at most 10 whole seconds are shown. *)
Definition stormTimerWarning (storm : Storm.t) : bool :=
  (stormTimerSeconds storm <=? 10)%Z.

(** [updateHealth]: the width of the health bar in percent. *)
Definition healthPercentage (player : Player.t) : option Q :=
  q <- JS.div (Player.getHealth player) (Player.getMaxHealth player) ;;
  Some (q * 100).

(** The colour of the health bar. *)
Definition healthColor (healthPercentage : Q) : string :=
  if JS.gtb healthPercentage 60 then "#ff3e3e"
  else if JS.gtb healthPercentage 30 then "#ff9d3e"
  else "#ff3e3e".

(** [updateAmmoCounter]: what the counter shows. *)
Inductive AmmoCounter : Type :=
| Reloading
| Rounds (ammo reserveAmmo : Q).

Definition ammoCounter (player : Player.t) : AmmoCounter :=
  match Player.getCurrentWeapon player with
  | Some currentWeapon =>
      if Weapon.isCurrentlyReloading currentWeapon then Reloading
      else Rounds (Weapon.getAmmo currentWeapon)
                  (Weapon.getReserveAmmo currentWeapon)
  | None => Rounds 0 0
  end.

End UI.

(** ** Vocabulary of the properties *)

(** The target of a storm configured by [c] lies between the final radius
    and the current radius. *)
Definition storm_ok (c : Storm.StormConfig) (s : Storm.t) : Prop :=
  Storm.config s = c /\
  Storm.finalRadius c <= Storm.targetRadius s /\
  Storm.targetRadius s <= Storm.radius s.

(** The duration the timer is reset to when the phase [ph] ends. *)
Definition next_phase_duration (c : Storm.StormConfig) (ph : Storm.Phase) : Q :=
  match ph with
  | Storm.paused => Storm.shrinkDuration c
  | Storm.shrinking => Storm.pauseDuration c
  end.

(** The squared planar distance of line 145 (before the square root). *)
Definition planarDistanceSquared (s : Storm.t) (pos : THREE.Vector3) : Q :=
  THREE.distanceToSquared (THREE.mkV2 (THREE.x pos) (THREE.z pos))
    (Storm.center s).

(** A storm that has reached the final radius of the constructor's
    configuration and is pausing. *)
Definition storm_at_final_radius : Storm.t :=
  {| Storm.radius := 20;
     Storm.targetRadius := 20;
     Storm.center := THREE.mkV2 0 0;
     Storm.config := Storm.defaultConfig;
     Storm.phase := Storm.paused;
     Storm.timeRemaining := 12;
     Storm.nextPhaseTime := 30 |}.

(** A weapon with a fire rate of 10 shots per second and one round loaded,
    as the constructor builds it from such a configuration. *)
Definition last_round_rifle : Weapon.t :=
  Weapon.new (Weapon.mkConfig "Assault Rifle"%string 20 10 1 30 120 240 2 true).

(** The cooldown scenario as the specification tells it, for a weapon [w] and
    the clock reading [t0] at which the scenario starts: the first call fires
    the last round, the call 0.05s later changes neither the ammunition nor
    the reloading flag. *)
Definition cooldown_scenario (w : Weapon.t) (t0 : Q) : Prop :=
  let w1 := fst (Weapon.shoot w t0 []) in
  let w2 := fst (Weapon.shoot w1 (t0 + 0.05) []) in
  Weapon.ammo w1 == 0 /\
  Weapon.ammo w2 == Weapon.ammo w1 /\
  Weapon.isReloading w2 = Weapon.isReloading w1.

(** The fields of a weapon other than the reloading flag and the timer. *)
Definition same_but_reload_state (w w' : Weapon.t) : Prop :=
  Weapon.config w' = Weapon.config w /\
  Weapon.model w' = Weapon.model w /\
  Weapon.ammo w' = Weapon.ammo w /\
  Weapon.reserveAmmo w' = Weapon.reserveAmmo w /\
  Weapon.shootingInterval w' = Weapon.shootingInterval w /\
  Weapon.muzzleFlash w' = Weapon.muzzleFlash w /\
  Weapon.muzzleFlashMesh w' = Weapon.muzzleFlashMesh w.

(** A player that has picked up three shield power-ups. *)
Definition three_shields : Player.t :=
  Player.pickUpPowerUp
    (Player.pickUpPowerUp
       (Player.pickUpPowerUp Player.new "shield"%string) "shield"%string)
    "shield"%string.

(** A camera looking along (0.6, 0, 0.8), with the matching strafe and
    forward axes of the controls. *)
Definition level_camera : Player.Camera :=
  {| Player.forward := THREE.mkV3 0.6 0 0.8;
     Player.rightAxis := THREE.mkV3 0.8 0 (-0.6);
     Player.forwardAxis := THREE.mkV3 0.6 0 0.8 |}.

Definition same_vector (a b : THREE.Vector3) : bool :=
  JS.eqb (THREE.x a) (THREE.x b)
  && JS.eqb (THREE.y a) (THREE.y b)
  && JS.eqb (THREE.z a) (THREE.z b).

(** A world with one climbable surface, 1 unit ahead along the camera's
    forward vector, and nothing along the four cardinal directions. *)
Definition ladder_world : Player.World :=
  {| Player.intersectObjects := fun _ dir =>
       if same_vector dir (Player.forward level_camera)
       then [Player.mkIntersection 1 true (THREE.mkV3 30.6 5 30.8)]
       else [] |}.

(** A player on the ladder, 5 units up, who climbed during the last tick and
    now holds the backward key only. *)
Definition climber_pressing_back : Player.t :=
  Player.setMovementFlags
    (Player.set_isClimbing
       (Player.set_position Player.new (THREE.mkV3 30 5 30)) true)
    false true false false false.

(** The vertical velocity with which [update] moves the player: the one
    left by [checkClimbing] and the gravity step (state [p1]), overwritten
    at lines 150-158 while climbing with a forward or backward key held. *)
Definition verticalVelocityUsed (p1 : Player.t) : Q :=
  if Player.moveForward p1 || Player.moveBackward p1 then
    if Player.isClimbing p1 && Player.moveForward p1 then Player.climbSpeed
    else if Player.isClimbing p1 then 0
    else THREE.y (Player.velocity p1)
  else THREE.y (Player.velocity p1).

(** The fields of a player that [update] has no business with. *)
Definition same_stats_and_keys (p p' : Player.t) : Prop :=
  Player.health p' = Player.health p /\
  Player.maxHealth p' = Player.maxHealth p /\
  Player.armor p' = Player.armor p /\
  Player.maxArmor p' = Player.maxArmor p /\
  Player.isCrouching p' = Player.isCrouching p /\
  Player.moveForward p' = Player.moveForward p /\
  Player.moveBackward p' = Player.moveBackward p /\
  Player.moveLeft p' = Player.moveLeft p /\
  Player.moveRight p' = Player.moveRight p /\
  Player.sprint p' = Player.sprint p /\
  Player.currentWeaponIndex p' = Player.currentWeaponIndex p.

(** The full duration of the phase [ph] under the configuration [c]. *)
Definition phase_duration (c : Storm.StormConfig) (ph : Storm.Phase) : Q :=
  match ph with
  | Storm.paused => Storm.pauseDuration c
  | Storm.shrinking => Storm.shrinkDuration c
  end.

(** The two timers of a storm configured by [c] agree with its phase: the
    length recorded for the phase is that of the current phase and the time
    remaining is positive and within it. *)
Definition storm_timer_ok (c : Storm.StormConfig) (s : Storm.t) : Prop :=
  Storm.config s = c /\
  Storm.nextPhaseTime s = phase_duration c (Storm.phase s) /\
  0 < Storm.timeRemaining s /\
  Storm.timeRemaining s <= Storm.nextPhaseTime s.

(** A configuration other than the constructor's. *)
Definition wide_storm : Storm.StormConfig :=
  {| Storm.initialRadius := 500;
     Storm.finalRadius := 50;
     Storm.shrinkDuration := 45;
     Storm.pauseDuration := 20;
     Storm.damage := 3 |}.

(** A number that is a whole number. *)
Definition whole (q : Q) : Prop := exists k : Z, q == inject_Z k.

(** The calls a weapon receives from its owner. *)
Inductive WeaponCall : Type :=
| CallInit (loaded : bool)
| CallShoot (now : Q) (intersects : list Weapon.Hit)
| CallReload
| CallUpdate (delta : Q)
| CallAddAmmo (amount : Q)
| CallShow
| CallHide.

Definition weapon_call (w : Weapon.t) (c : WeaponCall) : Weapon.t :=
  match c with
  | CallInit loaded => Weapon.init w loaded
  | CallShoot now intersects => fst (Weapon.shoot w now intersects)
  | CallReload => Weapon.reload w
  | CallUpdate delta => Weapon.update w delta
  | CallAddAmmo amount => Weapon.addAmmo w amount
  | CallShow => Weapon.show w
  | CallHide => Weapon.hide w
  end.

Definition weapon_calls (w : Weapon.t) (cs : list WeaponCall) : Weapon.t :=
  fold_left weapon_call cs w.

(** Ammunition is picked up in whole, non-negative amounts; the other calls
    take any argument. *)
Definition sound_call (c : WeaponCall) : Prop :=
  match c with
  | CallAddAmmo amount => whole amount /\ 0 <= amount
  | _ => True
  end.

(** The magazine and the reserve hold whole numbers of rounds within their
    capacities. *)
Definition counts_ok (w : Weapon.t) : Prop :=
  whole (Weapon.ammo w) /\
  whole (Weapon.reserveAmmo w) /\
  whole (Weapon.maxAmmo (Weapon.config w)) /\
  whole (Weapon.maxReserveAmmo (Weapon.config w)) /\
  0 <= Weapon.ammo w /\
  Weapon.ammo w <= Weapon.maxAmmo (Weapon.config w) /\
  0 <= Weapon.reserveAmmo w /\
  Weapon.reserveAmmo w <= Weapon.maxReserveAmmo (Weapon.config w).

(** Successive [update] calls. *)
Definition weapon_updates (w : Weapon.t) (deltas : list Q) : Weapon.t :=
  fold_left Weapon.update deltas w.

Definition sum_deltas (deltas : list Q) : Q := fold_right Qplus 0 deltas.






(** The current weapon index points into the inventory, if there is one. *)
Definition index_ok (p : Player.t) : Prop :=
  Player.weapons p = [] \/
  (Player.currentWeaponIndex p < Z.of_nat (List.length (Player.weapons p)))%Z.


(** The test of line 203: the nearest object along [dir] is closer than
    [playerRadius + collisionDistance]. *)
Definition blocked (world : Player.World) (pos dir : THREE.Vector3) : bool :=
  match Player.intersectObjects world pos dir with
  | i :: _ =>
      JS.ltb (Player.distance i) (Player.playerRadius + Player.collisionDistance)
  | [] => false
  end.

(** A wall 0.4 ahead of the player along +Z and open space elsewhere. *)
Definition wall_ahead : Player.World :=
  {| Player.intersectObjects := fun _ dir =>
       if same_vector dir (THREE.mkV3 0 0 1)
       then [Player.mkIntersection 0.4 false (THREE.mkV3 0 0 0)]
       else [] |}.

(** A world without any geometry. *)
Definition empty_world : Player.World :=
  {| Player.intersectObjects := fun _ _ => [] |}.

(** What happens to a game: the pointer lock, the mouse, the keys and the
    frames. *)
Inductive GameEvent : Type :=
| EvLock
| EvUnlock
| EvMouseDown (button : Z) (now : Q) (intersects : list Weapon.Hit)
| EvKeyDown (code : string)
| EvKeyUp (code : string)
| EvFrame (delta : Q) (world : Player.World) (camera : Player.Camera).

(** One event; [None] when the handler throws or the storm leaves the
    rationals. *)
Definition game_event (Math_sqrt : Q -> Q) (g : Game.t) (e : GameEvent)
  : option Game.t :=
  match e with
  | EvLock => Some (Game.onLock g)
  | EvUnlock => Some (Game.onUnlock g)
  | EvMouseDown button now intersects =>
      Game.onMouseDown g button now intersects
  | EvKeyDown code => Some (Game.onKeyDown g code)
  | EvKeyUp code => Some (Game.onKeyUp g code)
  | EvFrame delta world camera => Game.animate Math_sqrt g delta world camera
  end.






(** * Properties *)

(** ** Comparisons *)

Lemma ltb_true (a b : Q) : JS.ltb a b = true <-> a < b.
Proof.
  unfold JS.ltb. rewrite negb_true_iff, <- not_true_iff_false, Qle_bool_iff.
  split; [apply Qnot_le_lt | apply Qlt_not_le].
Qed.

Lemma ltb_false (a b : Q) : JS.ltb a b = false <-> b <= a.
Proof.
  unfold JS.ltb. rewrite negb_false_iff. apply Qle_bool_iff.
Qed.

Lemma leb_true (a b : Q) : JS.leb a b = true <-> a <= b.
Proof. apply Qle_bool_iff. Qed.

Lemma leb_false (a b : Q) : JS.leb a b = false <-> b < a.
Proof.
  unfold JS.leb. rewrite <- not_true_iff_false, Qle_bool_iff.
  split; [apply Qnot_le_lt | apply Qlt_not_le].
Qed.

Lemma gtb_true (a b : Q) : JS.gtb a b = true <-> b < a.
Proof. apply ltb_true. Qed.

Lemma gtb_false (a b : Q) : JS.gtb a b = false <-> a <= b.
Proof. apply ltb_false. Qed.

Lemma geb_true (a b : Q) : JS.geb a b = true <-> b <= a.
Proof. apply Qle_bool_iff. Qed.

Lemma div_defined (a b : Q) : ~ b == 0 -> JS.div a b = Some (a / b).
Proof.
  intros Hb. unfold JS.div.
  destruct (Qeq_bool b 0) eqn:E; [|reflexivity].
  apply Qeq_bool_iff in E. contradiction.
Qed.

Lemma quotient_nonneg (a b : Q) : 0 <= a -> 0 < b -> 0 <= a / b.
Proof.
  intros Ha Hb. apply Qle_shift_div_l; [assumption|].
  rewrite Qmult_0_l. assumption.
Qed.

Lemma Qmax_lub (a b c : Q) : a <= c -> b <= c -> Qmax a b <= c.
Proof.
  intros. destruct (Q.max_spec a b) as [[_ E]|[_ E]]; rewrite E; assumption.
Qed.

Lemma Qmax_ge_r (a b : Q) : b <= Qmax a b.
Proof. apply Q.le_max_r. Qed.

Lemma Qmax_ge_l (a b : Q) : a <= Qmax a b.
Proof. apply Q.le_max_l. Qed.

(** [JS.sqrt_gt] decides the comparison with the real square root. *)
Lemma sqrt_gt_real (d2 r : Q) :
  0 <= d2 ->
  (JS.sqrt_gt d2 r = true <-> (Q2R r < sqrt (Q2R d2))%R).
Proof.
  intros Hd. unfold JS.sqrt_gt.
  assert (Hd' : (0 <= Q2R d2)%R).
  { rewrite <- RMicromega.Q2R_0. apply Qle_Rle. exact Hd. }
  rewrite orb_true_iff, !ltb_true. split.
  - intros [Hr | Hr].
    + apply Qlt_Rlt in Hr. rewrite RMicromega.Q2R_0 in Hr.
      pose proof (sqrt_pos (Q2R d2)). Lra.lra.
    + destruct (Qlt_le_dec r 0) as [Hneg | Hpos].
      * apply Qlt_Rlt in Hneg. rewrite RMicromega.Q2R_0 in Hneg.
        pose proof (sqrt_pos (Q2R d2)). Lra.lra.
      * apply Qle_Rle in Hpos. rewrite RMicromega.Q2R_0 in Hpos.
        apply Qlt_Rlt in Hr. rewrite Q2R_mult in Hr.
        rewrite <- (sqrt_square (Q2R r)) by assumption.
        apply sqrt_lt_1_alt. split; [Lra.nra | assumption].
  - intros H. destruct (Qlt_le_dec r 0) as [Hneg | Hpos]; [left; assumption|].
    right. apply Rlt_Qlt. rewrite Q2R_mult.
    apply Qle_Rle in Hpos. rewrite RMicromega.Q2R_0 in Hpos.
    rewrite <- (sqrt_sqrt (Q2R d2)) by assumption.
    apply Rmult_le_0_lt_compat; assumption.
Qed.

(** ** Storm *)

Section StormInvariant.
Import Storm.

(** A configuration whose radii are ordered and whose shrink phase takes
    time, as the constructor's is. *)
Variable c : StormConfig.
Hypothesis final_nonneg : 0 <= finalRadius c.
Hypothesis final_le_initial : finalRadius c <= initialRadius c.
Hypothesis shrink_pos : 0 < shrinkDuration c.

Lemma init_ok : storm_ok c (init c).
Proof.
  unfold storm_ok, init; simpl.
  split; [reflexivity | split; [assumption | lra]].
Qed.

Lemma tick_phase_ok (s : t) (delta : Q) :
  storm_ok c s ->
  storm_ok c (tick_phase s delta) /\
  radius (tick_phase s delta) = radius s /\
  (phase (tick_phase s delta) = shrinking ->
   0 <= delta ->
   0 < timeRemaining (tick_phase s delta)).
Proof.
  intros (Hc & Hf & Ht). unfold tick_phase.
  destruct (JS.leb (timeRemaining s - delta) 0) eqn:E.
  - destruct (phase s); simpl.
    + unfold storm_ok; simpl. repeat split; try assumption. discriminate.
    + unfold storm_ok; simpl. rewrite Hc. repeat split.
      * apply Qmax_ge_r.
      * apply Qmax_lub; lra.
      * intros _ _. exact shrink_pos.
  - apply leb_false in E. unfold storm_ok; simpl.
    repeat split; try assumption. intros _ _. exact E.
Qed.

Lemma update_ok (s : t) (delta : Q) (pos : THREE.Vector3) :
  storm_ok c s -> 0 <= delta ->
  exists s' d,
    update s delta pos = Some (s', d) /\
    storm_ok c s' /\
    radius s' <= radius s.
Proof.
  intros Hok Hd.
  destruct (tick_phase_ok s delta Hok) as ((Hc & Hf & Ht) & Hr & Htime).
  unfold update, shrink.
  destruct (phase (tick_phase s delta)) eqn:Eph.
  - specialize (Htime eq_refl Hd).
    rewrite div_defined by lra. simpl.
    eexists; eexists; split; [reflexivity|].
    unfold storm_ok; simpl. rewrite Hr in *.
    assert (Hq : 0 <= (radius s - targetRadius (tick_phase s delta))
                      / timeRemaining (tick_phase s delta)).
    { apply quotient_nonneg; lra. }
    pose proof (Qmult_le_0_compat _ _ Hd Hq) as Hm.
    repeat split; try assumption.
    + apply Qmax_ge_r.
    + apply Qmax_lub; lra.
  - simpl. eexists; eexists; split; [reflexivity|].
    split; [repeat split; assumption | rewrite Hr; lra].
Qed.

Lemma run_ok (calls : list (Q * THREE.Vector3)) (s : t) :
  storm_ok c s ->
  Forall (fun call => 0 <= fst call) calls ->
  exists s', run s calls = Some s' /\ storm_ok c s' /\ radius s' <= radius s.
Proof.
  revert s. induction calls as [|[delta pos] rest IH]; intros s Hok Hall.
  - exists s. split; [reflexivity|]. split; [assumption | lra].
  - inversion Hall as [|? ? Hd Hrest]; subst. simpl in Hd.
    destruct (update_ok s delta pos Hok Hd) as (s1 & d & E & Hok1 & Hr1).
    destruct (IH s1 Hok1 Hrest) as (s2 & E2 & Hok2 & Hr2).
    exists s2. simpl. rewrite E. simpl. rewrite E2.
    split; [reflexivity|]. split; [assumption | lra].
Qed.

End StormInvariant.

(** Every [update] on a storm started by the constructor is defined, keeps
    the invariant and does not enlarge the radius. *)
Lemma new_ok : storm_ok Storm.defaultConfig Storm.new.
Proof.
  apply init_ok; unfold Storm.defaultConfig; cbn; lra.
Qed.

(** C1: for every sequence of [Storm.update] calls with non-negative deltas,
    starting from the constructed storm, each call is defined, the radius
    after a call is at most the radius before it, and the radius never falls
    below the configured [finalRadius]. *)
Theorem storm_radius_nonincreasing_bounded :
  forall (calls : list (Q * THREE.Vector3)) (delta : Q) (pos : THREE.Vector3),
    Forall (fun call => 0 <= fst call) calls ->
    0 <= delta ->
    exists s s' d,
      Storm.run Storm.new calls = Some s /\
      Storm.update s delta pos = Some (s', d) /\
      Storm.radius s' <= Storm.radius s /\
      Storm.finalRadius (Storm.config s) <= Storm.radius s /\
      Storm.finalRadius (Storm.config s') <= Storm.radius s'.
Proof.
  intros calls delta pos Hall Hd.
  assert (H0 : 0 <= Storm.finalRadius Storm.defaultConfig) by (cbn; lra).
  assert (H1 : 0 < Storm.shrinkDuration Storm.defaultConfig) by (cbn; lra).
  destruct (run_ok Storm.defaultConfig H0 H1 calls Storm.new new_ok Hall)
    as (s & Erun & Hok & _).
  destruct (update_ok Storm.defaultConfig H0 H1 s delta pos Hok Hd)
    as (s' & d & Eup & Hok' & Hle).
  exists s, s', d.
  destruct Hok as (Hc & Hf & Ht), Hok' as (Hc' & Hf' & Ht').
  rewrite Hc, Hc'. repeat split; try assumption; lra.
Qed.

Lemma storm_radius_nonincreasing_bounded_witness :
  exists s s' d,
    Storm.run Storm.new
      [(31, THREE.mkV3 30 2 30); (10, THREE.mkV3 150 2 0)] = Some s /\
    Storm.update s 25 (THREE.mkV3 0 2 0) = Some (s', d) /\
    Storm.radius s' <= Storm.radius s /\
    Storm.finalRadius (Storm.config s) <= Storm.radius s /\
    Storm.finalRadius (Storm.config s') <= Storm.radius s'.
Proof.
  apply (storm_radius_nonincreasing_bounded
           [(31, THREE.mkV3 30 2 30); (10, THREE.mkV3 150 2 0)]
           25 (THREE.mkV3 0 2 0)).
  - repeat constructor; vm_compute; discriminate.
  - vm_compute; discriminate.
Defined.

Lemma tick_phase_timer (s : Storm.t) (delta : Q) :
  (Storm.timeRemaining s - delta <= 0 ->
   Storm.timeRemaining (Storm.tick_phase s delta)
   = next_phase_duration (Storm.config s) (Storm.phase s)) /\
  (0 < Storm.timeRemaining s - delta ->
   Storm.timeRemaining (Storm.tick_phase s delta)
   = Storm.timeRemaining s - delta).
Proof.
  unfold Storm.tick_phase.
  destruct (JS.leb (Storm.timeRemaining s - delta) 0) eqn:E.
  - apply leb_true in E. split; [intros _ | intros H; lra].
    destruct (Storm.phase s); reflexivity.
  - apply leb_false in E. split; [intros H; lra | intros _; reflexivity].
Qed.

Lemma tick_phase_config (s : Storm.t) (delta : Q) :
  Storm.config (Storm.tick_phase s delta) = Storm.config s.
Proof.
  unfold Storm.tick_phase.
  destruct (JS.leb _ 0); [destruct (Storm.phase s)|]; reflexivity.
Qed.

Lemma tick_phase_center (s : Storm.t) (delta : Q) :
  Storm.center (Storm.tick_phase s delta) = Storm.center s.
Proof.
  unfold Storm.tick_phase.
  destruct (JS.leb _ 0); [destruct (Storm.phase s)|]; reflexivity.
Qed.

(** While shrinking after the timer step, the timer is positive as soon as
    the shrink phase takes time. *)
Lemma tick_phase_shrinking_timer (s : Storm.t) (delta : Q) :
  0 < Storm.shrinkDuration (Storm.config s) ->
  Storm.phase (Storm.tick_phase s delta) = Storm.shrinking ->
  0 < Storm.timeRemaining (Storm.tick_phase s delta).
Proof.
  intros Hs. unfold Storm.tick_phase.
  destruct (JS.leb (Storm.timeRemaining s - delta) 0) eqn:E.
  - destruct (Storm.phase s); cbn; [discriminate | intros _; exact Hs].
  - apply leb_false in E. cbn. intros _. exact E.
Qed.

(** [shrink] changes the radius only. *)
Lemma shrink_frame (s s' : Storm.t) (delta : Q) :
  Storm.shrink s delta = Some s' ->
  Storm.timeRemaining s' = Storm.timeRemaining s /\
  Storm.config s' = Storm.config s /\
  Storm.center s' = Storm.center s /\
  Storm.phase s' = Storm.phase s.
Proof.
  unfold Storm.shrink. destruct (Storm.phase s) eqn:Eph.
  - destruct (JS.div _ _); cbn; [|discriminate].
    intros H; injection H as <-. cbn. auto.
  - intros H; injection H as <-. auto.
Qed.

Lemma shrink_defined (s : Storm.t) (delta : Q) :
  (Storm.phase s = Storm.shrinking -> 0 < Storm.timeRemaining s) ->
  exists s', Storm.shrink s delta = Some s'.
Proof.
  intros H. unfold Storm.shrink. destruct (Storm.phase s).
  - rewrite div_defined by (specialize (H eq_refl); lra).
    cbn. eexists; reflexivity.
  - eexists; reflexivity.
Qed.

(** [update] is defined as soon as the shrink phase takes time, and then
    returns the damage chosen by [isOutsideStorm] on the new storm. *)
Lemma update_defined (s : Storm.t) (delta : Q) (pos : THREE.Vector3) :
  0 < Storm.shrinkDuration (Storm.config s) ->
  exists s',
    Storm.shrink (Storm.tick_phase s delta) delta = Some s' /\
    Storm.update s delta pos
    = Some (s', if Storm.isOutsideStorm s' pos
                then Storm.damage (Storm.config s') * delta
                else 0).
Proof.
  intros Hs.
  destruct (shrink_defined (Storm.tick_phase s delta) delta) as (s' & E).
  { apply tick_phase_shrinking_timer. exact Hs. }
  exists s'. split; [exact E|]. unfold Storm.update. rewrite E. reflexivity.
Qed.

(** C8: with both phase durations strictly positive, every [update] with a
    non-negative delta is defined and leaves the phase timer strictly
    positive; an update in which the timer would reach or cross zero resets
    it to the full duration of the next phase. *)
Theorem storm_timer_positive :
  forall (s : Storm.t) (delta : Q) (pos : THREE.Vector3),
    0 < Storm.shrinkDuration (Storm.config s) ->
    0 < Storm.pauseDuration (Storm.config s) ->
    0 <= delta ->
    exists s' d,
      Storm.update s delta pos = Some (s', d) /\
      0 < Storm.timeRemaining s' /\
      (Storm.timeRemaining s - delta <= 0 ->
       Storm.timeRemaining s'
       = next_phase_duration (Storm.config s) (Storm.phase s)).
Proof.
  intros s delta pos Hs Hp _.
  destruct (update_defined s delta pos Hs) as (s' & Esh & Eup).
  destruct (shrink_frame _ _ _ Esh) as (Ht & _).
  destruct (tick_phase_timer s delta) as (Hreset & Hkeep).
  eexists; eexists; split; [exact Eup|]. rewrite Ht. split.
  - destruct (Qlt_le_dec 0 (Storm.timeRemaining s - delta)) as [Hpos | Hneg].
    + rewrite (Hkeep Hpos). exact Hpos.
    + rewrite (Hreset Hneg). destruct (Storm.phase s); assumption.
  - exact Hreset.
Qed.

Lemma storm_timer_positive_witness :
  exists s' d,
    Storm.update Storm.new 30 (THREE.mkV3 30 2 30) = Some (s', d) /\
    0 < Storm.timeRemaining s' /\
    (Storm.timeRemaining Storm.new - 30 <= 0 ->
     Storm.timeRemaining s'
     = next_phase_duration (Storm.config Storm.new) (Storm.phase Storm.new)).
Proof.
  apply (storm_timer_positive Storm.new 30 (THREE.mkV3 30 2 30));
    vm_compute; first [reflexivity | discriminate].
Defined.

Lemma distanceToSquared_nonneg (a b : THREE.Vector2) :
  0 <= THREE.distanceToSquared a b.
Proof.
  unfold THREE.distanceToSquared. cbv zeta.
  generalize (THREE.x2 a - THREE.x2 b) (THREE.y2 a - THREE.y2 b).
  intros dx dy. nra.
Qed.

(** The test of line 146 against the real planar distance. *)
Lemma isOutsideStorm_real (s : Storm.t) (pos : THREE.Vector3) :
  Storm.isOutsideStorm s pos = true <->
  (Q2R (Storm.radius s) < sqrt (Q2R (planarDistanceSquared s pos)))%R.
Proof.
  unfold Storm.isOutsideStorm, planarDistanceSquared.
  apply sqrt_gt_real. apply distanceToSquared_nonneg.
Qed.

(** Once the radii are ordered, an update does not enlarge the radius. *)
Lemma update_radius_le (s s' : Storm.t) (delta d : Q) (pos : THREE.Vector3) :
  0 < Storm.shrinkDuration (Storm.config s) ->
  0 <= Storm.finalRadius (Storm.config s) ->
  Storm.finalRadius (Storm.config s) <= Storm.targetRadius s ->
  Storm.targetRadius s <= Storm.radius s ->
  0 <= delta ->
  Storm.update s delta pos = Some (s', d) ->
  Storm.radius s' <= Storm.radius s.
Proof.
  intros Hs H0 Hf Ht Hd E.
  destruct (update_ok (Storm.config s) H0 Hs s delta pos) as (s1 & d1 & E1 & _ & Hle).
  - repeat split; assumption.
  - assumption.
  - rewrite E in E1. injection E1 as <- <-. exact Hle.
Qed.

(** C7: [Storm.update(dt, actorPosition)] returns [damage * dt] when the
    planar (x,z) distance from the actor to the zone centre exceeds the
    radius the call has just computed, and 0 otherwise; with the actor at
    planar distance 25, radius 20, a damage rate of 2 and dt = 0.5 it
    returns 1. *)
Theorem storm_damage_rule :
  (forall (s : Storm.t) (delta : Q) (pos : THREE.Vector3),
     0 < Storm.shrinkDuration (Storm.config s) ->
     exists s' d,
       Storm.update s delta pos = Some (s', d) /\
       ((Q2R (Storm.radius s') < sqrt (Q2R (planarDistanceSquared s' pos)))%R ->
        d = Storm.damage (Storm.config s) * delta) /\
       (~ (Q2R (Storm.radius s') < sqrt (Q2R (planarDistanceSquared s' pos)))%R ->
        d = 0)) /\
  (forall (s : Storm.t) (pos : THREE.Vector3),
     0 < Storm.shrinkDuration (Storm.config s) ->
     0 <= Storm.finalRadius (Storm.config s) ->
     Storm.finalRadius (Storm.config s) <= Storm.targetRadius s ->
     Storm.targetRadius s <= Storm.radius s ->
     Storm.radius s == 20 ->
     Storm.damage (Storm.config s) == 2 ->
     sqrt (Q2R (planarDistanceSquared s pos)) = 25%R ->
     exists s' d,
       Storm.update s 0.5 pos = Some (s', d) /\ d == 1).
Proof.
  split.
  - intros s delta pos Hs.
    destruct (update_defined s delta pos Hs) as (s' & Esh & Eup).
    destruct (shrink_frame _ _ _ Esh) as (_ & Hc & _).
    rewrite tick_phase_config in Hc.
    exists s'. eexists. split; [exact Eup|]. rewrite Hc.
    pose proof (isOutsideStorm_real s' pos) as Hout.
    destruct (Storm.isOutsideStorm s' pos).
    + split; [reflexivity|]. intros Hn. exfalso. apply Hn, Hout. reflexivity.
    + split; [|reflexivity]. intros H. apply Hout in H. discriminate.
  - intros s pos Hs H0 Hf Ht Hr Hdmg Hdist.
    destruct (update_defined s 0.5 pos Hs) as (s' & Esh & Eup).
    destruct (shrink_frame _ _ _ Esh) as (_ & Hc & Hcen & _).
    rewrite tick_phase_config in Hc. rewrite tick_phase_center in Hcen.
    exists s'. eexists. split; [exact Eup|].
    assert (Hle : Storm.radius s' <= Storm.radius s).
    { refine (update_radius_le s s' 0.5 _ pos Hs H0 Hf Ht _ Eup).
      vm_compute; discriminate. }
    assert (Hout : Storm.isOutsideStorm s' pos = true).
    { apply isOutsideStorm_real.
      replace (planarDistanceSquared s' pos) with (planarDistanceSquared s pos)
        by (unfold planarDistanceSquared; rewrite Hcen; reflexivity).
      rewrite Hdist.
      assert (H20 : Storm.radius s' <= 20) by lra.
      apply Qle_Rle in H20.
      replace (Q2R 20) with 20%R in H20 by (unfold Q2R; cbn; Lra.lra).
      Lra.lra. }
    rewrite Hout, Hc. lra.
Qed.

Lemma storm_damage_rule_witness :
  (exists s' d,
     Storm.update Storm.new 0.5 (THREE.mkV3 150 2 150) = Some (s', d) /\
     ((Q2R (Storm.radius s')
       < sqrt (Q2R (planarDistanceSquared s' (THREE.mkV3 150 2 150))))%R ->
      d = Storm.damage (Storm.config Storm.new) * 0.5) /\
     (~ (Q2R (Storm.radius s')
         < sqrt (Q2R (planarDistanceSquared s' (THREE.mkV3 150 2 150))))%R ->
      d = 0)) /\
  (exists s' d,
     Storm.update storm_at_final_radius 0.5 (THREE.mkV3 15 2 20)
     = Some (s', d) /\ d == 1).
Proof.
  split.
  - apply (proj1 storm_damage_rule Storm.new 0.5 (THREE.mkV3 150 2 150)).
    vm_compute; reflexivity.
  - apply (proj2 storm_damage_rule storm_at_final_radius (THREE.mkV3 15 2 20)).
    + vm_compute; reflexivity.
    + vm_compute; discriminate.
    + vm_compute; discriminate.
    + vm_compute; discriminate.
    + vm_compute; reflexivity.
    + vm_compute; reflexivity.
    + assert (E : planarDistanceSquared storm_at_final_radius
                    (THREE.mkV3 15 2 20) == 625) by (vm_compute; reflexivity).
      rewrite (Qeq_eqR _ _ E).
      replace (Q2R 625) with (25 * 25)%R by (unfold Q2R; cbn; Lra.lra).
      apply sqrt_square. Lra.lra.
Defined.

(** ** Weapon *)

Lemma set_flash_visible_frame (w : Weapon.t) (v : bool) :
  Weapon.config (Weapon.set_flash_visible w v) = Weapon.config w /\
  Weapon.ammo (Weapon.set_flash_visible w v) = Weapon.ammo w /\
  Weapon.reserveAmmo (Weapon.set_flash_visible w v) = Weapon.reserveAmmo w /\
  Weapon.isReloading (Weapon.set_flash_visible w v) = Weapon.isReloading w /\
  Weapon.lastShotTime (Weapon.set_flash_visible w v) = Weapon.lastShotTime w /\
  Weapon.shootingInterval (Weapon.set_flash_visible w v)
  = Weapon.shootingInterval w /\
  Weapon.model (Weapon.set_flash_visible w v) = Weapon.model w.
Proof.
  unfold Weapon.set_flash_visible.
  destruct (Weapon.muzzleFlash w); cbn; repeat split; reflexivity.
Qed.

(** The flash step of [update] touches neither the rounds nor the reload
    flag. *)
Lemma update_flash_frame (w : Weapon.t) (delta : Q) :
  Weapon.config (Weapon.update_flash w delta) = Weapon.config w /\
  Weapon.ammo (Weapon.update_flash w delta) = Weapon.ammo w /\
  Weapon.reserveAmmo (Weapon.update_flash w delta) = Weapon.reserveAmmo w /\
  Weapon.isReloading (Weapon.update_flash w delta) = Weapon.isReloading w.
Proof.
  unfold Weapon.update_flash.
  destruct (Weapon.muzzleFlash w) as [[|]|]; try (repeat split; reflexivity).
  destruct (JS.gtb _ _).
  - destruct (set_flash_visible_frame
                (Weapon.set_lastShotTime w (Weapon.lastShotTime w + delta))
                false) as (Hc & Ha & Hr & Hl & _).
    rewrite Hc, Ha, Hr, Hl. repeat split; reflexivity.
  - repeat split; reflexivity.
Qed.

(** [reload] changes nothing but the reloading flag and the timer. *)
Lemma reload_frame (w : Weapon.t) : same_but_reload_state w (Weapon.reload w).
Proof.
  unfold same_but_reload_state, Weapon.reload.
  destruct (_ || _); cbn; repeat split; reflexivity.
Qed.

(** C6: when a reload completes during [Weapon.update] (the weapon is
    reloading and the timer, advanced by [delta], has reached [reloadTime]),
    exactly [min(maxAmmo - ammo, reserveAmmo)] rounds move from the reserve
    to the magazine, the reloading flag is cleared, and the total number of
    rounds is unchanged. *)
Theorem reload_completion_conserves_rounds :
  forall (w : Weapon.t) (delta : Q),
    Weapon.isReloading w = true ->
    Weapon.reloadTime (Weapon.config w) <= Weapon.lastShotTime w + delta ->
    let moved :=
      Qmin (Weapon.maxAmmo (Weapon.config w) - Weapon.ammo w)
           (Weapon.reserveAmmo w) in
    let w' := Weapon.update w delta in
    Weapon.ammo w' = Weapon.ammo w + moved /\
    Weapon.reserveAmmo w' = Weapon.reserveAmmo w - moved /\
    Weapon.isReloading w' = false /\
    Weapon.ammo w' + Weapon.reserveAmmo w'
    == Weapon.ammo w + Weapon.reserveAmmo w.
Proof.
  intros w delta Hrel Htime moved w'.
  assert (E : Weapon.update_reload w delta
              = Weapon.completeReload
                  (Weapon.set_lastShotTime w (Weapon.lastShotTime w + delta))).
  { unfold Weapon.update_reload. rewrite Hrel.
    assert (G : JS.geb
                  (Weapon.lastShotTime
                     (Weapon.set_lastShotTime w (Weapon.lastShotTime w + delta)))
                  (Weapon.reloadTime
                     (Weapon.config
                        (Weapon.set_lastShotTime w
                           (Weapon.lastShotTime w + delta)))) = true).
    { apply geb_true. cbn. exact Htime. }
    rewrite G. reflexivity. }
  subst w'. unfold Weapon.update. rewrite E.
  destruct (update_flash_frame
              (Weapon.completeReload
                 (Weapon.set_lastShotTime w (Weapon.lastShotTime w + delta)))
              delta) as (_ & Ha & Hr & Hl).
  rewrite Ha, Hr, Hl. cbn. fold moved.
  repeat split; try reflexivity. lra.
Qed.

Lemma reload_completion_conserves_rounds_witness :
  let w := Weapon.reload
             (Weapon.addAmmo
                (Weapon.new
                   (Weapon.mkConfig "Pistol"%string 15 3 5 12 0 96 1.5 false))
                4) in
  let moved :=
    Qmin (Weapon.maxAmmo (Weapon.config w) - Weapon.ammo w)
         (Weapon.reserveAmmo w) in
  let w' := Weapon.update w 2 in
  Weapon.ammo w' = Weapon.ammo w + moved /\
  Weapon.reserveAmmo w' = Weapon.reserveAmmo w - moved /\
  Weapon.isReloading w' = false /\
  Weapon.ammo w' + Weapon.reserveAmmo w'
  == Weapon.ammo w + Weapon.reserveAmmo w.
Proof.
  apply (reload_completion_conserves_rounds
           (Weapon.reload
              (Weapon.addAmmo
                 (Weapon.new
                    (Weapon.mkConfig "Pistol"%string 15 3 5 12 0 96 1.5 false))
                 4))
           2).
  - vm_compute; reflexivity.
  - vm_compute; discriminate.
Defined.

(** The weapon after a shot that is let through, before the hit scan. *)
Lemma shoot_fired (w : Weapon.t) (now : Q) (hits : list Weapon.Hit) :
  Weapon.fires w now = true ->
  let w' := fst (Weapon.shoot w now hits) in
  Weapon.ammo w' = Weapon.ammo w - 1 /\
  Weapon.reserveAmmo w' = Weapon.reserveAmmo w /\
  Weapon.isReloading w' = false /\
  Weapon.lastShotTime w' = now /\
  Weapon.config w' = Weapon.config w /\
  Weapon.shootingInterval w' = Weapon.shootingInterval w.
Proof.
  unfold Weapon.fires, Weapon.shoot. intros H.
  apply andb_true_iff in H. destruct H as (H1 & H2).
  apply negb_true_iff in H1. apply negb_true_iff in H2.
  rewrite H1, H2.
  apply orb_false_iff in H1. destruct H1 as (Hrel & _).
  match goal with
  | |- context [Weapon.set_flash_visible ?a true] =>
      destruct (set_flash_visible_frame a true) as (Hc & Ha & Hr & Hl & Ht & Hi & _)
  end.
  destruct hits; cbn [fst]; rewrite Ha, Hr, Hl, Ht, Hc, Hi; cbn;
    repeat split; try reflexivity; exact Hrel.
Qed.

(** A call that is not let through: out of ammunition it is [reload],
    otherwise it does nothing. *)
Lemma shoot_rejected (w : Weapon.t) (now : Q) (hits : list Weapon.Hit) :
  Weapon.fires w now = false ->
  Weapon.shoot w now hits
  = (if JS.leb (Weapon.ammo w) 0 then Weapon.reload w else w, Weapon.NoEffect).
Proof.
  unfold Weapon.fires, Weapon.shoot. intros H.
  destruct (Weapon.isReloading w || JS.leb (Weapon.ammo w) 0) eqn:G.
  - reflexivity.
  - cbn in H. apply negb_false_iff in H. rewrite H.
    apply orb_false_iff in G. destruct G as (_ & G). rewrite G. reflexivity.
Qed.

(** C9: [Weapon.shoot()] never changes [reserveAmmo].  A shot that fires
    takes one round from [ammo]; a call rejected because the weapon is
    reloading, empty or cooling down leaves [ammo] unchanged and has no
    effect outside the weapon; rejected with rounds left it changes nothing
    at all, and rejected for lack of rounds it changes at most the reloading
    flag and the timer. *)
Theorem shoot_never_touches_reserve :
  forall (w : Weapon.t) (now : Q) (hits : list Weapon.Hit),
    let w' := fst (Weapon.shoot w now hits) in
    Weapon.reserveAmmo w' = Weapon.reserveAmmo w /\
    (Weapon.fires w now = true -> Weapon.ammo w' = Weapon.ammo w - 1) /\
    (Weapon.fires w now = false ->
     Weapon.ammo w' = Weapon.ammo w /\
     snd (Weapon.shoot w now hits) = Weapon.NoEffect) /\
    (Weapon.fires w now = false -> 0 < Weapon.ammo w -> w' = w) /\
    (Weapon.ammo w <= 0 ->
     w' = Weapon.reload w /\ same_but_reload_state w w').
Proof.
  intros w now hits w'. subst w'.
  destruct (Weapon.fires w now) eqn:F.
  - destruct (shoot_fired w now hits F) as (Ha & Hr & _).
    split; [exact Hr|]. split; [intros _; exact Ha|].
    split; [discriminate|]. split; [discriminate|].
    intros Hle. exfalso.
    unfold Weapon.fires in F. apply andb_true_iff in F. destruct F as (F & _).
    apply negb_true_iff, orb_false_iff in F. destruct F as (_ & F).
    apply leb_false in F. lra.
  - rewrite (shoot_rejected w now hits F). cbn [fst snd].
    destruct (reload_frame w) as (Hc & Hm & Ha & Hr & Hrest).
    destruct (JS.leb (Weapon.ammo w) 0) eqn:G.
    + split; [exact Hr|]. split; [discriminate|].
      split; [intros _; split; [exact Ha | reflexivity]|].
      split; [intros _ Hpos; apply leb_true in G; lra|].
      intros _. split; [reflexivity | apply reload_frame].
    + split; [reflexivity|]. split; [discriminate|].
      split; [intros _; split; reflexivity|].
      split; [intros _ _; reflexivity|].
      intros Hle. apply leb_false in G. lra.
Qed.

Lemma shoot_never_touches_reserve_witness :
  let w := Weapon.init (Weapon.new Player.pistol) true in
  let w1 := fst (Weapon.shoot w 7 [Weapon.mkHit true]) in
  (Weapon.reserveAmmo w1 = Weapon.reserveAmmo w /\
   Weapon.ammo w1 = Weapon.ammo w - 1) /\
  fst (Weapon.shoot w1 7.2 []) = w1.
Proof.
  cbv zeta. split.
  - destruct (shoot_never_touches_reserve
                (Weapon.init (Weapon.new Player.pistol) true) 7
                [Weapon.mkHit true]) as (Hr & Hf & _).
    split; [exact Hr | apply Hf; vm_compute; reflexivity].
  - apply (shoot_never_touches_reserve
             (fst (Weapon.shoot (Weapon.init (Weapon.new Player.pistol) true) 7
                     [Weapon.mkHit true])) 7.2 []).
    + vm_compute; reflexivity.
    + vm_compute; reflexivity.
Defined.

Lemma eqb_true (a b : Q) : JS.eqb a b = true <-> a == b.
Proof. apply Qeq_bool_iff. Qed.

Lemma eqb_false (a b : Q) : JS.eqb a b = false <-> ~ a == b.
Proof.
  unfold JS.eqb. rewrite <- not_true_iff_false, Qeq_bool_iff. reflexivity.
Qed.

(** What [reload] does when its three guards let it through, and when one
    of them stops it. *)
Lemma reload_starts (w : Weapon.t) :
  Weapon.isReloading w = false ->
  ~ Weapon.ammo w == Weapon.maxAmmo (Weapon.config w) ->
  0 < Weapon.reserveAmmo w ->
  Weapon.isReloading (Weapon.reload w) = true /\
  Weapon.lastShotTime (Weapon.reload w) = 0.
Proof.
  intros Hr Ha Hres. unfold Weapon.reload.
  apply eqb_false in Ha. apply leb_false in Hres.
  rewrite Hr, Ha, Hres. cbn. split; reflexivity.
Qed.

Lemma reload_refused (w : Weapon.t) :
  Weapon.isReloading w = true \/
  Weapon.ammo w == Weapon.maxAmmo (Weapon.config w) \/
  Weapon.reserveAmmo w <= 0 ->
  Weapon.reload w = w.
Proof.
  intros H. unfold Weapon.reload.
  assert (G : Weapon.isReloading w
              || JS.eqb (Weapon.ammo w) (Weapon.maxAmmo (Weapon.config w))
              || JS.leb (Weapon.reserveAmmo w) 0 = true).
  { rewrite !orb_true_iff, eqb_true, leb_true. tauto. }
  rewrite G. reflexivity.
Qed.

(** The scenario of the specification fails on the code: once the first
    call has fired the last round, the second call sets the reloading
    flag.  Read with the clock at 0 on a fresh weapon, the first call is
    itself inside the cooldown and fires nothing. *)
Lemma cooldown_scenario_fails :
  ~ cooldown_scenario last_round_rifle 1 /\
  ~ cooldown_scenario last_round_rifle 0.
Proof.
  split; intros (H1 & H2 & H3); vm_compute in H1, H3; discriminate.
Qed.

(** C2, as the code has it: for a weapon with a fire rate of 10, one round
    loaded and not reloading, a [shoot()] whose cooldown has elapsed fires
    and leaves no round; the call 0.05s later fires nothing and leaves
    [ammo] at 0, but it is stopped by the out-of-ammunition guard, which
    comes before the cooldown test, and is a [reload()]: with rounds in
    reserve and a magazine that holds any, the reloading flag is set and the
    timer reset by this very call; without, nothing changes. *)
Theorem shoot_empty_reloads_at_once :
  forall (w : Weapon.t) (t0 : Q) (hits1 hits2 : list Weapon.Hit),
    Weapon.fireRate (Weapon.config w) == 10 ->
    Weapon.shootingInterval w = JS.div 1 (Weapon.fireRate (Weapon.config w)) ->
    Weapon.ammo w == 1 ->
    Weapon.isReloading w = false ->
    0.1 <= t0 - Weapon.lastShotTime w ->
    let w1 := fst (Weapon.shoot w t0 hits1) in
    let r2 := Weapon.shoot w1 (t0 + 0.05) hits2 in
    Weapon.ammo w1 == 0 /\
    Weapon.isReloading w1 = false /\
    Weapon.ammo (fst r2) == 0 /\
    snd r2 = Weapon.NoEffect /\
    fst r2 = Weapon.reload w1 /\
    (0 < Weapon.reserveAmmo w ->
     ~ Weapon.maxAmmo (Weapon.config w) == 0 ->
     Weapon.isReloading (fst r2) = true /\
     Weapon.lastShotTime (fst r2) = 0) /\
    (Weapon.reserveAmmo w <= 0 \/ Weapon.maxAmmo (Weapon.config w) == 0 ->
     fst r2 = w1).
Proof.
  intros w t0 hits1 hits2 Hrate Hint Hammo Hrel Hcool w1 r2.
  assert (F : Weapon.fires w t0 = true).
  { unfold Weapon.fires, Weapon.inCooldown. rewrite Hrel, Hint.
    rewrite div_defined by (rewrite Hrate; discriminate).
    assert (G : JS.leb (Weapon.ammo w) 0 = false)
      by (apply leb_false; rewrite Hammo; reflexivity).
    rewrite G. cbn. apply negb_true_iff, ltb_false.
    rewrite Hrate. exact Hcool. }
  destruct (shoot_fired w t0 hits1 F) as (Ha & Hr & Hl & _ & Hc & _).
  fold w1 in Ha, Hr, Hl, Hc.
  assert (A1 : Weapon.ammo w1 == 0) by (rewrite Ha, Hammo; reflexivity).
  assert (E1 : JS.leb (Weapon.ammo w1) 0 = true)
    by (apply leb_true; rewrite A1; apply Qle_refl).
  assert (F1 : Weapon.fires w1 (t0 + 0.05) = false).
  { unfold Weapon.fires. rewrite E1, orb_true_r. reflexivity. }
  subst r2. rewrite (shoot_rejected w1 _ hits2 F1), E1. cbn [fst snd].
  destruct (reload_frame w1) as (_ & _ & Ha2 & _).
  split; [exact A1|]. split; [exact Hl|].
  split; [rewrite Ha2; exact A1|]. split; [reflexivity|].
  split; [reflexivity|]. split.
  - intros Hres Hmax. apply reload_starts.
    + exact Hl.
    + rewrite Hc, A1. intros E. apply Hmax. symmetry. exact E.
    + rewrite Hr. exact Hres.
  - intros H. apply reload_refused. right.
    rewrite Hc, Hr, A1. destruct H as [H | H]; [right; exact H|].
    left. symmetry. exact H.
Qed.

Lemma shoot_empty_reloads_at_once_witness :
  let w1 := fst (Weapon.shoot last_round_rifle 1 []) in
  let r2 := Weapon.shoot w1 (1 + 0.05) [] in
  Weapon.ammo w1 == 0 /\
  Weapon.isReloading w1 = false /\
  Weapon.ammo (fst r2) == 0 /\
  snd r2 = Weapon.NoEffect /\
  fst r2 = Weapon.reload w1 /\
  (0 < Weapon.reserveAmmo last_round_rifle ->
   ~ Weapon.maxAmmo (Weapon.config last_round_rifle) == 0 ->
   Weapon.isReloading (fst r2) = true /\
   Weapon.lastShotTime (fst r2) = 0) /\
  (Weapon.reserveAmmo last_round_rifle <= 0 \/
   Weapon.maxAmmo (Weapon.config last_round_rifle) == 0 ->
   fst r2 = w1).
Proof.
  apply (shoot_empty_reloads_at_once last_round_rifle 1 [] []).
  - vm_compute; reflexivity.
  - vm_compute; reflexivity.
  - vm_compute; reflexivity.
  - vm_compute; reflexivity.
  - vm_compute; discriminate.
Defined.

(** ** Player *)

Lemma Qmin_glb (a b c : Q) : c <= a -> c <= b -> c <= Qmin a b.
Proof.
  intros. destruct (Q.min_spec a b) as [[_ E]|[_ E]]; rewrite E; assumption.
Qed.

(** [takeDamage] written out: the armour absorbed and the rest taken from
    the health. *)
Lemma takeDamage_fields (p : Player.t) (amount : Q) :
  let absorbed :=
    if JS.gtb (Player.armor p) 0
    then Qmin (Player.armor p) (amount * 0.5) else 0 in
  Player.armor (Player.takeDamage p amount) == Player.armor p - absorbed /\
  Player.health (Player.takeDamage p amount)
  == Qmax 0 (Player.health p - (amount - absorbed)) /\
  Player.maxHealth (Player.takeDamage p amount) = Player.maxHealth p /\
  Player.maxArmor (Player.takeDamage p amount) = Player.maxArmor p.
Proof.
  unfold Player.takeDamage. destruct (JS.gtb (Player.armor p) 0); cbn.
  - repeat split; reflexivity.
  - repeat split; try reflexivity.
    + lra.
    + apply Q.max_compat; [reflexivity | lra].
Qed.

(** C5: for [amount >= 0] and an armour that is not negative,
    [takeDamage(amount)] takes [min(armor, amount * 0.5)] from the armour
    and the rest of [amount] from the health, which stops at 0; with an
    armour of 30, [takeDamage(40)] leaves an armour of 10 and takes 20 from
    the health. *)
Theorem takeDamage_absorbs_half :
  forall (p : Player.t) (amount : Q),
    0 <= amount ->
    0 <= Player.armor p ->
    let absorbed := Qmin (Player.armor p) (amount * 0.5) in
    let p' := Player.takeDamage p amount in
    Player.armor p' == Player.armor p - absorbed /\
    Player.health p' == Qmax 0 (Player.health p - (amount - absorbed)) /\
    0 <= Player.health p' /\
    (Player.armor p == 30 -> amount == 40 ->
     Player.armor p' == 10 /\
     Player.health p' == Qmax 0 (Player.health p - 20) /\
     (20 <= Player.health p -> Player.health p' == Player.health p - 20)).
Proof.
  intros p amount Hamt Harm absorbed p'.
  destruct (takeDamage_fields p amount) as (Ha & Hh & _).
  fold p' in Ha, Hh.
  assert (Habs : (if JS.gtb (Player.armor p) 0
                  then Qmin (Player.armor p) (amount * 0.5) else 0)
                 == absorbed).
  { subst absorbed. destruct (JS.gtb (Player.armor p) 0) eqn:G.
    - reflexivity.
    - apply gtb_false in G.
      assert (E : Player.armor p == 0) by lra.
      destruct (Q.min_spec (Player.armor p) (amount * 0.5)) as [[_ M]|[L M]];
        rewrite M; lra. }
  assert (A : Player.armor p' == Player.armor p - absorbed)
    by (rewrite Ha, Habs; reflexivity).
  assert (H : Player.health p'
              == Qmax 0 (Player.health p - (amount - absorbed))).
  { rewrite Hh. apply Q.max_compat; [reflexivity|]. rewrite Habs. reflexivity. }
  split; [exact A|]. split; [exact H|].
  split; [rewrite H; apply Q.le_max_l|].
  intros E30 E40.
  assert (Eabs : absorbed == 20).
  { subst absorbed.
    destruct (Q.min_spec (Player.armor p) (amount * 0.5)) as [[L M]|[L M]];
      rewrite M; lra. }
  assert (H20 : Player.health p' == Qmax 0 (Player.health p - 20)).
  { rewrite H. apply Q.max_compat; [reflexivity|]. rewrite Eabs, E40. lra. }
  split; [rewrite A, Eabs, E30; reflexivity|].
  split; [exact H20|].
  intros Hge. rewrite H20.
  destruct (Q.max_spec 0 (Player.health p - 20)) as [[_ M]|[L M]];
    rewrite M; lra.
Qed.

Lemma takeDamage_absorbs_half_witness :
  let p := Player.addArmor Player.new 30 in
  let absorbed := Qmin (Player.armor p) (40 * 0.5) in
  let p' := Player.takeDamage p 40 in
  Player.armor p' == Player.armor p - absorbed /\
  Player.health p' == Qmax 0 (Player.health p - (40 - absorbed)) /\
  0 <= Player.health p' /\
  (Player.armor p == 30 -> 40 == 40 ->
   Player.armor p' == 10 /\
   Player.health p' == Qmax 0 (Player.health p - 20) /\
   (20 <= Player.health p -> Player.health p' == Player.health p - 20)).
Proof.
  apply (takeDamage_absorbs_half (Player.addArmor Player.new 30) 40).
  - vm_compute; discriminate.
  - vm_compute; discriminate.
Defined.

(** C10: two [toggleCrouch()] calls in a row restore the crouching flag and
    the vertical position, and leave everything else as it was. *)
Theorem toggleCrouch_twice :
  forall p : Player.t,
    let p2 := Player.toggleCrouch (Player.toggleCrouch p) in
    Player.isCrouching p2 = Player.isCrouching p /\
    THREE.y (Player.position p2) == THREE.y (Player.position p) /\
    THREE.x (Player.position p2) = THREE.x (Player.position p) /\
    THREE.z (Player.position p2) = THREE.z (Player.position p) /\
    Player.velocity p2 = Player.velocity p /\
    Player.health p2 = Player.health p /\
    Player.armor p2 = Player.armor p /\
    Player.weapons p2 = Player.weapons p.
Proof.
  intros p p2. subst p2. unfold Player.toggleCrouch.
  destruct (Player.isCrouching p) eqn:E; cbn; rewrite ?E; cbn;
    repeat split; try reflexivity;
    unfold Player.standingHeight, Player.crouchingHeight; field.
Qed.

(** [addShield] adds 50 to the armour whatever [maxArmor] is. *)
Lemma pickUpPowerUp_shield (p : Player.t) :
  Player.armor (Player.pickUpPowerUp p "shield"%string) = Player.armor p + 50 /\
  Player.maxArmor (Player.pickUpPowerUp p "shield"%string) = Player.maxArmor p.
Proof. split; reflexivity. Qed.

(** C3 fails on the code: [pickUpPowerUp] with a shield adds 50 to the
    armour without the clamp that [addArmor] has, so three pick-ups on a new
    player give an armour of 150 above [maxArmor] = 100. *)
Theorem shield_pickups_exceed_maxArmor :
  Player.armor three_shields == 150 /\
  Player.maxArmor three_shields == 100 /\
  ~ Player.armor three_shields <= Player.maxArmor three_shields /\
  Player.armor (Player.addArmor (Player.addArmor (Player.addArmor
                  Player.new 50) 50) 50) == 100.
Proof.
  repeat split; try (vm_compute; reflexivity).
  intros H. vm_compute in H. apply H. reflexivity.
Qed.

(** Climbing needs the forward key: after [checkClimbing] the climbing flag
    is set only if [moveForward] is. *)
Lemma checkClimbing_needs_forward
    (p : Player.t) (world : Player.World) (camera : Player.Camera) :
  Player.moveForward p = false ->
  Player.isClimbing (Player.checkClimbing p world camera) = false /\
  Player.velocity (Player.checkClimbing p world camera) = Player.velocity p.
Proof.
  intros H. unfold Player.checkClimbing. rewrite H, andb_false_r.
  cbn. split; reflexivity.
Qed.

Lemma same_stats_and_keys_refl (p : Player.t) : same_stats_and_keys p p.
Proof. unfold same_stats_and_keys. repeat split; reflexivity. Qed.

Lemma same_stats_and_keys_trans (p q r : Player.t) :
  same_stats_and_keys p q -> same_stats_and_keys q r ->
  same_stats_and_keys p r.
Proof.
  unfold same_stats_and_keys.
  intros (A1 & A2 & A3 & A4 & A5 & A6 & A7 & A8 & A9 & A10 & A11)
         (B1 & B2 & B3 & B4 & B5 & B6 & B7 & B8 & B9 & B10 & B11).
  repeat split; congruence.
Qed.

Lemma checkClimbing_frame
    (p : Player.t) (world : Player.World) (camera : Player.Camera) :
  same_stats_and_keys p (Player.checkClimbing p world camera) /\
  Player.weapons (Player.checkClimbing p world camera) = Player.weapons p /\
  THREE.y (Player.position (Player.checkClimbing p world camera))
  = THREE.y (Player.position p).
Proof.
  unfold Player.checkClimbing, same_stats_and_keys.
  destruct (Player.canClimb _ && Player.moveForward p); cbn;
    repeat split; reflexivity.
Qed.

Lemma applyGravity_frame (p : Player.t) (delta : Q) :
  same_stats_and_keys p (Player.applyGravity p delta) /\
  Player.weapons (Player.applyGravity p delta) = Player.weapons p /\
  Player.position (Player.applyGravity p delta) = Player.position p /\
  Player.isClimbing (Player.applyGravity p delta) = Player.isClimbing p.
Proof.
  unfold Player.applyGravity, same_stats_and_keys.
  destruct (Player.isClimbing p) eqn:C; cbn;
    [rewrite ?C; repeat split; reflexivity|].
  destruct (Player.isOnGround p); cbn;
    [|rewrite ?C; repeat split; reflexivity].
  destruct (JS.ltb _ 0); cbn; rewrite ?C; repeat split; reflexivity.
Qed.

Lemma clampToGround_frame (p : Player.t) :
  same_stats_and_keys p (Player.clampToGround p) /\
  Player.weapons (Player.clampToGround p) = Player.weapons p /\
  Player.isClimbing (Player.clampToGround p) = Player.isClimbing p.
Proof.
  unfold Player.clampToGround, same_stats_and_keys.
  destruct (JS.ltb _ _); cbn; repeat split; reflexivity.
Qed.

Lemma withCurrentWeapon_frame
    (p p' : Player.t) (f : Weapon.t -> Weapon.t) :
  Player.withCurrentWeapon p f = Some p' ->
  same_stats_and_keys p p' /\
  Player.position p' = Player.position p /\
  Player.velocity p' = Player.velocity p /\
  Player.isClimbing p' = Player.isClimbing p /\
  Player.isJumping p' = Player.isJumping p /\
  List.length (Player.weapons p') = List.length (Player.weapons p).
Proof.
  unfold Player.withCurrentWeapon.
  assert (L : forall ws i w, List.length (Player.replace ws i w)
                             = List.length ws).
  { induction ws as [|a ws IH]; intros [|i] w; cbn; auto. }
  destruct (Player.weapons p) eqn:W.
  - intros H; injection H as <-. rewrite W.
    split; [apply same_stats_and_keys_refl|]. repeat split; reflexivity.
  - destruct (Player.currentWeaponIndex p >=? 0)%Z.
    + destruct (Player.currentWeapon p); cbn; [|discriminate].
      intros H; injection H as <-.
      split; [unfold same_stats_and_keys; cbn; repeat split; reflexivity|].
      repeat split; try reflexivity.
      unfold Player.set_weapons. cbn [Player.weapons].
      destruct (Z.to_nat (Player.currentWeaponIndex p)); cbn;
        rewrite ?L; reflexivity.
    + intros H; injection H as <-. rewrite W.
      split; [apply same_stats_and_keys_refl|]. repeat split; reflexivity.
Qed.

(** [update] laid out: the player [q] just before the floor clamp has the
    climbing flag of [checkClimbing], the vertical velocity
    [verticalVelocityUsed] and has moved by it (and by the vertical part, if
    any, of the two camera axes). *)
Lemma update_before_clamp
    (Math_sqrt : Q -> Q) (p : Player.t) (delta : Q)
    (world : Player.World) (camera : Player.Camera) :
  let p1 := Player.applyGravity (Player.checkClimbing p world camera) delta in
  exists q : Player.t,
    Player.update Math_sqrt p delta world camera
    = Player.withCurrentWeapon (Player.clampToGround q)
        (fun w => Weapon.update w delta) /\
    same_stats_and_keys p q /\
    Player.weapons q = Player.weapons p /\
    Player.isClimbing q = Player.isClimbing p1 /\
    THREE.y (Player.velocity q) = verticalVelocityUsed p1 /\
    THREE.y (Player.position q)
    = THREE.y (Player.position p) + verticalVelocityUsed p1 * delta
      + THREE.y (Player.rightAxis camera)
        * (THREE.x (Player.velocity q) * delta)
      + THREE.y (Player.forwardAxis camera)
        * (THREE.z (Player.velocity q) * delta).
Proof.
  intros p1.
  destruct (checkClimbing_frame p world camera) as (F1 & W1 & Y1).
  destruct (applyGravity_frame (Player.checkClimbing p world camera) delta)
    as (F2 & W2 & P2 & C2).
  fold p1 in F2, W2, P2, C2.
  pose proof (same_stats_and_keys_trans _ _ _ F1 F2) as F.
  unfold Player.update. fold p1.
  match goal with
  | |- context [Player.checkCollisions ?w ?pos ?a ?b] =>
      destruct (Player.checkCollisions w pos a b) as [vx vz]
  end.
  eexists. split; [reflexivity|].
  unfold verticalVelocityUsed, same_stats_and_keys in *.
  destruct F as (A1 & A2 & A3 & A4 & A5 & A6 & A7 & A8 & A9 & A10 & A11).
  cbn [Player.set_direction Player.moveForward Player.moveBackward
       Player.moveLeft Player.moveRight Player.sprint Player.isCrouching
       Player.isClimbing Player.velocity Player.position Player.direction
       Player.isJumping Player.health Player.maxHealth Player.armor
       Player.maxArmor Player.weapons Player.currentWeaponIndex].
  destruct (Player.moveForward p1 || Player.moveBackward p1);
    [destruct (Player.isClimbing p1) eqn:C;
     [destruct (Player.moveForward p1) eqn:M|]|];
    cbn; rewrite ?P2, ?Y1, ?C;
    (repeat split; try assumption; try congruence).
Qed.

Lemma clampToGround_above (p : Player.t) :
  Player.stanceHeight p / 2 <= THREE.y (Player.position p) ->
  Player.clampToGround p = p.
Proof.
  intros H. unfold Player.clampToGround.
  apply ltb_false in H. rewrite H. reflexivity.
Qed.

Lemma withCurrentWeapon_unarmed (p : Player.t) (f : Weapon.t -> Weapon.t) :
  Player.weapons p = [] -> Player.withCurrentWeapon p f = Some p.
Proof. intros H. unfold Player.withCurrentWeapon. rewrite H. reflexivity. Qed.

(** C4 fails on the code: a player who was climbing, is next to the
    climbable surface and holds the backward key only is taken off the
    ladder by [update]; gravity applies, so after a tick of 0.1s the vertical
    velocity is -0.98 and not [-climbSpeed], and the player has moved down
    by 0.098. *)
Theorem backward_on_ladder_falls :
  forall Math_sqrt : Q -> Q,
  exists p',
    Player.update Math_sqrt climber_pressing_back 0.1 ladder_world level_camera
    = Some p' /\
    Player.isClimbing p' = false /\
    THREE.y (Player.velocity p') == - 0.98 /\
    ~ THREE.y (Player.velocity p') == - Player.climbSpeed /\
    THREE.y (Player.position p') == 4.902.
Proof.
  intros Math_sqrt.
  destruct (update_before_clamp Math_sqrt climber_pressing_back 0.1
              ladder_world level_camera)
    as (q & E & F & W & C & V & Y).
  assert (HV : verticalVelocityUsed
                 (Player.applyGravity
                    (Player.checkClimbing climber_pressing_back ladder_world
                       level_camera) 0.1) == - 0.98)
    by (vm_compute; reflexivity).
  assert (HY : THREE.y (Player.position q) == 4.902).
  { rewrite Y, HV.
    change (THREE.y (Player.rightAxis level_camera)) with 0.
    change (THREE.y (Player.forwardAxis level_camera)) with 0.
    change (THREE.y (Player.position climber_pressing_back)) with 5.
    ring. }
  assert (HC : Player.clampToGround q = q).
  { apply clampToGround_above. unfold Player.stanceHeight.
    destruct F as (_ & _ & _ & _ & F5 & _). rewrite F5.
    change (Player.isCrouching climber_pressing_back) with false.
    cbv iota. rewrite HY. vm_compute. discriminate. }
  exists q. rewrite E, HC.
  split; [apply withCurrentWeapon_unarmed; rewrite W; reflexivity|].
  split; [rewrite C; reflexivity|].
  split; [rewrite V; exact HV|].
  split; [|exact HY].
  rewrite V, HV. vm_compute. discriminate.
Qed.

(** ** Storm: further properties *)

(** X1: For every configuration with ordered, non-negative radii and a shrink
    phase that takes time, every sequence of updates with non-negative
    deltas is defined and keeps
    [finalRadius <= targetRadius <= radius <= initialRadius]. *)
Theorem storm_radii_ordered :
  forall (c : Storm.StormConfig) (calls : list (Q * THREE.Vector3)),
    0 <= Storm.finalRadius c ->
    Storm.finalRadius c <= Storm.initialRadius c ->
    0 < Storm.shrinkDuration c ->
    Forall (fun call => 0 <= fst call) calls ->
    exists s,
      Storm.run (Storm.init c) calls = Some s /\
      Storm.config s = c /\
      Storm.finalRadius c <= Storm.targetRadius s /\
      Storm.targetRadius s <= Storm.radius s /\
      Storm.radius s <= Storm.initialRadius c.
Proof.
  intros c calls H0 Hfi Hs Hall.
  destruct (run_ok c H0 Hs calls (Storm.init c) (init_ok c Hfi) Hall)
    as (s & E & (Hc & Hf & Ht) & Hr).
  exists s. repeat split; assumption.
Qed.

Lemma storm_radii_ordered_witness :
  exists s,
    Storm.run (Storm.init wide_storm)
      [(25, THREE.mkV3 0 0 0); (15, THREE.mkV3 0 0 0); (40, THREE.mkV3 1 1 1)]
    = Some s /\
    Storm.config s = wide_storm /\
    Storm.finalRadius wide_storm <= Storm.targetRadius s /\
    Storm.targetRadius s <= Storm.radius s /\
    Storm.radius s <= Storm.initialRadius wide_storm.
Proof.
  apply (storm_radii_ordered wide_storm
           [(25, THREE.mkV3 0 0 0); (15, THREE.mkV3 0 0 0);
            (40, THREE.mkV3 1 1 1)]).
  - vm_compute; discriminate.
  - vm_compute; discriminate.
  - vm_compute; reflexivity.
  - repeat constructor; vm_compute; discriminate.
Defined.

(** X2: Once the radius has reached [finalRadius] no update changes it. *)
Theorem storm_final_radius_is_absorbing :
  forall (s : Storm.t) (delta : Q) (pos : THREE.Vector3),
    0 <= Storm.finalRadius (Storm.config s) ->
    0 < Storm.shrinkDuration (Storm.config s) ->
    Storm.finalRadius (Storm.config s) <= Storm.targetRadius s ->
    Storm.targetRadius s <= Storm.radius s ->
    Storm.radius s == Storm.finalRadius (Storm.config s) ->
    0 <= delta ->
    exists s' d,
      Storm.update s delta pos = Some (s', d) /\
      Storm.radius s' == Storm.finalRadius (Storm.config s') /\
      Storm.targetRadius s' == Storm.finalRadius (Storm.config s').
Proof.
  intros s delta pos H0 Hs Hf Ht Hr Hd.
  destruct (update_ok (Storm.config s) H0 Hs s delta pos) as
    (s' & d & E & (Hc & Hf' & Ht') & Hle).
  - repeat split; assumption.
  - assumption.
  - exists s', d. split; [exact E|]. rewrite Hc. split; lra.
Qed.

Lemma storm_final_radius_is_absorbing_witness :
  exists s' d,
    Storm.update storm_at_final_radius 12 (THREE.mkV3 3 0 4) = Some (s', d) /\
    Storm.radius s' == Storm.finalRadius (Storm.config s') /\
    Storm.targetRadius s' == Storm.finalRadius (Storm.config s').
Proof.
  apply (storm_final_radius_is_absorbing storm_at_final_radius 12
           (THREE.mkV3 3 0 4));
    vm_compute; first [reflexivity | discriminate].
Defined.

(** X3: The radius during a shrinking tick.  With [s1] the storm after the timer
    step, [tr1 > 0] its time remaining and the target at most the radius:
    the distance to the target is multiplied by [1 - delta / tr1] when
    [delta <= tr1], and the radius is the target when [delta >= tr1]. *)
Theorem storm_shrink_recurrence :
  forall (s : Storm.t) (delta : Q) (pos : THREE.Vector3),
    let s1 := Storm.tick_phase s delta in
    0 <= delta ->
    Storm.phase s1 = Storm.shrinking ->
    0 < Storm.timeRemaining s1 ->
    Storm.targetRadius s1 <= Storm.radius s ->
    exists s' d,
      Storm.update s delta pos = Some (s', d) /\
      Storm.targetRadius s' = Storm.targetRadius s1 /\
      (delta <= Storm.timeRemaining s1 ->
       Storm.radius s' - Storm.targetRadius s1
       == (Storm.radius s - Storm.targetRadius s1)
          * (1 - delta / Storm.timeRemaining s1)) /\
      (Storm.timeRemaining s1 <= delta ->
       Storm.radius s' == Storm.targetRadius s1).
Proof.
  intros s delta pos s1 Hd Hph Htr Ht.
  assert (Hr : Storm.radius s1 = Storm.radius s).
  { subst s1. unfold Storm.tick_phase.
    destruct (JS.leb _ 0); [destruct (Storm.phase s)|]; reflexivity. }
  unfold Storm.update, Storm.shrink. fold s1. rewrite Hph.
  rewrite div_defined by lra. cbn [JS.bind].
  eexists; eexists. split; [reflexivity|].
  cbn [Storm.radius Storm.targetRadius]. rewrite Hr.
  set (r := Storm.radius s) in *. set (t := Storm.targetRadius s1) in *.
  set (tr := Storm.timeRemaining s1) in *.
  assert (Hq : 0 <= (r - t) / tr) by (apply quotient_nonneg; lra).
  assert (Hrec : r - delta * ((r - t) / tr) - t == (r - t) * (1 - delta / tr)).
  { field. lra. }
  assert (Hfrac : delta / tr * tr == delta) by (field; lra).
  split; [reflexivity|]. split.
  - intros Hle.
    assert (H1 : 0 <= 1 - delta / tr).
    { assert (delta / tr <= 1); [|lra].
      apply Qle_shift_div_r; lra. }
    assert (H2 : 0 <= (r - t) * (1 - delta / tr))
      by (apply Qmult_le_0_compat; lra).
    destruct (Q.max_spec (r - delta * ((r - t) / tr)) t) as [[L M]|[L M]];
      rewrite M; lra.
  - intros Hge.
    assert (H1 : 1 <= delta / tr) by (apply Qle_shift_div_l; lra).
    assert (H2 : 0 <= (r - t) * (delta / tr - 1))
      by (apply Qmult_le_0_compat; lra).
    assert (H3 : delta * ((r - t) / tr) == (r - t) * (delta / tr))
      by (field; lra).
    destruct (Q.max_spec (r - delta * ((r - t) / tr)) t) as [[L M]|[L M]];
      rewrite M; lra.
Qed.

Lemma storm_shrink_recurrence_witness :
  exists s' d,
    Storm.update Storm.new 45 (THREE.mkV3 0 0 0) = Some (s', d) /\
    Storm.targetRadius s'
    = Storm.targetRadius (Storm.tick_phase Storm.new 45) /\
    (45 <= Storm.timeRemaining (Storm.tick_phase Storm.new 45) ->
     Storm.radius s' - Storm.targetRadius (Storm.tick_phase Storm.new 45)
     == (Storm.radius Storm.new
         - Storm.targetRadius (Storm.tick_phase Storm.new 45))
        * (1 - 45 / Storm.timeRemaining (Storm.tick_phase Storm.new 45))) /\
    (Storm.timeRemaining (Storm.tick_phase Storm.new 45) <= 45 ->
     Storm.radius s' == Storm.targetRadius (Storm.tick_phase Storm.new 45)).
Proof.
  apply (storm_shrink_recurrence Storm.new 45 (THREE.mkV3 0 0 0));
    vm_compute; first [reflexivity | discriminate].
Defined.

(** What [shrink] keeps of the storm it is given. *)
Lemma shrink_keeps (s s' : Storm.t) (delta : Q) :
  Storm.shrink s delta = Some s' ->
  Storm.phase s' = Storm.phase s /\
  Storm.timeRemaining s' = Storm.timeRemaining s /\
  Storm.targetRadius s' = Storm.targetRadius s /\
  Storm.nextPhaseTime s' = Storm.nextPhaseTime s /\
  (Storm.phase s' = Storm.paused -> Storm.radius s' = Storm.radius s).
Proof.
  unfold Storm.shrink. destruct (Storm.phase s) eqn:Eph.
  - destruct (JS.div _ _); cbn; [|discriminate].
    intros H; injection H as <-. cbn. rewrite ?Eph.
    repeat split; try reflexivity. discriminate.
  - intros H; injection H as <-. rewrite ?Eph. repeat split; reflexivity.
Qed.

(** The timer step in its three cases. *)
Lemma tick_phase_cases (s : Storm.t) (delta : Q) :
  Storm.radius (Storm.tick_phase s delta) = Storm.radius s /\
  (0 < Storm.timeRemaining s - delta ->
   Storm.phase (Storm.tick_phase s delta) = Storm.phase s /\
   Storm.timeRemaining (Storm.tick_phase s delta)
   = Storm.timeRemaining s - delta /\
   Storm.targetRadius (Storm.tick_phase s delta) = Storm.targetRadius s /\
   Storm.nextPhaseTime (Storm.tick_phase s delta) = Storm.nextPhaseTime s) /\
  (Storm.timeRemaining s - delta <= 0 ->
   Storm.phase s = Storm.paused ->
   Storm.phase (Storm.tick_phase s delta) = Storm.shrinking /\
   Storm.targetRadius (Storm.tick_phase s delta)
   = Qmax (Storm.radius s * 0.7) (Storm.finalRadius (Storm.config s)) /\
   Storm.timeRemaining (Storm.tick_phase s delta)
   = Storm.shrinkDuration (Storm.config s) /\
   Storm.nextPhaseTime (Storm.tick_phase s delta)
   = Storm.shrinkDuration (Storm.config s)) /\
  (Storm.timeRemaining s - delta <= 0 ->
   Storm.phase s = Storm.shrinking ->
   Storm.phase (Storm.tick_phase s delta) = Storm.paused /\
   Storm.targetRadius (Storm.tick_phase s delta) = Storm.targetRadius s /\
   Storm.timeRemaining (Storm.tick_phase s delta)
   = Storm.pauseDuration (Storm.config s) /\
   Storm.nextPhaseTime (Storm.tick_phase s delta)
   = Storm.pauseDuration (Storm.config s)).
Proof.
  unfold Storm.tick_phase.
  destruct (JS.leb (Storm.timeRemaining s - delta) 0) eqn:E.
  - apply leb_true in E.
    destruct (Storm.phase s) eqn:Eph; cbn;
      (split; [reflexivity|]);
      (split; [intros H; lra|]);
      split; intros _ H; first [discriminate H | repeat split; reflexivity].
  - apply leb_false in E. cbn.
    split; [reflexivity|].
    split; [intros _; repeat split; reflexivity|].
    split; intros H; lra.
Qed.

(** X4: The phase machine of [update].  While the timer has not run out the
    phase, the target and the recorded phase length stay and the timer goes
    down by [delta]; when it runs out a pause turns into a shrink towards
    [max(0.7 * radius, finalRadius)] and a shrink into a pause, each with
    the full duration of the new phase; whenever the storm is pausing after
    the call the radius is the one before the call. *)
Theorem storm_phase_alternates :
  forall (s : Storm.t) (delta : Q) (pos : THREE.Vector3),
    0 < Storm.shrinkDuration (Storm.config s) ->
    exists s' d,
      Storm.update s delta pos = Some (s', d) /\
      (0 < Storm.timeRemaining s - delta ->
       Storm.phase s' = Storm.phase s /\
       Storm.timeRemaining s' = Storm.timeRemaining s - delta /\
       Storm.targetRadius s' = Storm.targetRadius s /\
       Storm.nextPhaseTime s' = Storm.nextPhaseTime s) /\
      (Storm.timeRemaining s - delta <= 0 ->
       Storm.phase s = Storm.paused ->
       Storm.phase s' = Storm.shrinking /\
       Storm.targetRadius s'
       = Qmax (Storm.radius s * 0.7) (Storm.finalRadius (Storm.config s)) /\
       Storm.timeRemaining s' = Storm.shrinkDuration (Storm.config s) /\
       Storm.nextPhaseTime s' = Storm.shrinkDuration (Storm.config s)) /\
      (Storm.timeRemaining s - delta <= 0 ->
       Storm.phase s = Storm.shrinking ->
       Storm.phase s' = Storm.paused /\
       Storm.targetRadius s' = Storm.targetRadius s /\
       Storm.timeRemaining s' = Storm.pauseDuration (Storm.config s) /\
       Storm.nextPhaseTime s' = Storm.pauseDuration (Storm.config s)) /\
      (Storm.phase s' = Storm.paused -> Storm.radius s' = Storm.radius s).
Proof.
  intros s delta pos Hs.
  destruct (update_defined s delta pos Hs) as (s' & Esh & Eup).
  exists s'. eexists. split; [exact Eup|].
  destruct (shrink_keeps _ _ _ Esh) as (Hp & Ht & Hg & Hn & Hr).
  destruct (tick_phase_cases s delta) as (R & Hkeep & Hps & Hsp).
  rewrite Hp, Ht, Hg, Hn. rewrite R in Hr.
  split; [exact Hkeep|]. split; [exact Hps|]. split; [exact Hsp|].
  intros H. apply Hr. rewrite Hp. exact H.
Qed.

Lemma storm_phase_alternates_witness :
  exists s' d,
    Storm.update Storm.new 30 (THREE.mkV3 0 0 0) = Some (s', d) /\
    (0 < Storm.timeRemaining Storm.new - 30 ->
     Storm.phase s' = Storm.phase Storm.new /\
     Storm.timeRemaining s' = Storm.timeRemaining Storm.new - 30 /\
     Storm.targetRadius s' = Storm.targetRadius Storm.new /\
     Storm.nextPhaseTime s' = Storm.nextPhaseTime Storm.new) /\
    (Storm.timeRemaining Storm.new - 30 <= 0 ->
     Storm.phase Storm.new = Storm.paused ->
     Storm.phase s' = Storm.shrinking /\
     Storm.targetRadius s'
     = Qmax (Storm.radius Storm.new * 0.7)
            (Storm.finalRadius (Storm.config Storm.new)) /\
     Storm.timeRemaining s' = Storm.shrinkDuration (Storm.config Storm.new) /\
     Storm.nextPhaseTime s' = Storm.shrinkDuration (Storm.config Storm.new)) /\
    (Storm.timeRemaining Storm.new - 30 <= 0 ->
     Storm.phase Storm.new = Storm.shrinking ->
     Storm.phase s' = Storm.paused /\
     Storm.targetRadius s' = Storm.targetRadius Storm.new /\
     Storm.timeRemaining s' = Storm.pauseDuration (Storm.config Storm.new) /\
     Storm.nextPhaseTime s' = Storm.pauseDuration (Storm.config Storm.new)) /\
    (Storm.phase s' = Storm.paused -> Storm.radius s' = Storm.radius Storm.new).
Proof.
  apply (storm_phase_alternates Storm.new 30 (THREE.mkV3 0 0 0)).
  vm_compute; reflexivity.
Defined.

Lemma update_timer_ok
    (c : Storm.StormConfig) (s : Storm.t) (delta : Q) (pos : THREE.Vector3) :
  0 < Storm.shrinkDuration c ->
  0 < Storm.pauseDuration c ->
  0 <= delta ->
  storm_timer_ok c s ->
  exists s' d, Storm.update s delta pos = Some (s', d) /\ storm_timer_ok c s'.
Proof.
  intros Hs Hp Hd (Hc & Hn & Hpos & Hle).
  assert (Hs' : 0 < Storm.shrinkDuration (Storm.config s))
    by (rewrite Hc; exact Hs).
  destruct (update_defined s delta pos Hs') as (s' & Esh & E).
  exists s'. eexists. split; [exact E|].
  assert (Hc' : Storm.config s' = c).
  { destruct (shrink_frame _ _ _ Esh) as (_ & H & _).
    rewrite H, tick_phase_config. exact Hc. }
  destruct (shrink_keeps _ _ _ Esh) as (Kp & Kt & _ & Kn & _).
  destruct (tick_phase_cases s delta) as (_ & Hkeep & Hps & Hsp).
  rewrite <- Kp, <- Kt, <- Kn in Hkeep, Hps, Hsp.
  unfold storm_timer_ok. split; [exact Hc'|].
  destruct (Qlt_le_dec 0 (Storm.timeRemaining s - delta)) as [Hgt | Hexp].
  - destruct (Hkeep Hgt) as (K1 & K2 & _ & K4).
    rewrite K1, K2, K4. repeat split; try assumption. lra.
  - destruct (Storm.phase s) eqn:Eph.
    + destruct (Hsp Hexp eq_refl) as (K1 & _ & K3 & K4).
      rewrite K1, K3, K4, Hc. cbn. repeat split; try assumption. lra.
    + destruct (Hps Hexp eq_refl) as (K1 & _ & K3 & K4).
      rewrite K1, K3, K4, Hc. cbn. repeat split; try assumption. lra.
Qed.

(** X5: From the constructor's state of any configuration with positive phase
    durations, after every sequence of updates with non-negative deltas the
    recorded phase length ([getNextPhaseTime]) is the duration of the
    current phase and the time remaining is positive and at most it. *)
Theorem storm_timers_agree_with_phase :
  forall (c : Storm.StormConfig) (calls : list (Q * THREE.Vector3)),
    0 < Storm.shrinkDuration c ->
    0 < Storm.pauseDuration c ->
    Forall (fun call => 0 <= fst call) calls ->
    exists s,
      Storm.run (Storm.init c) calls = Some s /\
      Storm.getNextPhaseTime s = phase_duration c (Storm.getCurrentPhase s) /\
      0 < Storm.getTimeRemaining s /\
      Storm.getTimeRemaining s <= Storm.getNextPhaseTime s.
Proof.
  intros c calls Hs Hp Hall.
  assert (G : forall s, storm_timer_ok c s ->
                exists s', Storm.run s calls = Some s' /\ storm_timer_ok c s').
  { induction Hall as [|[delta pos] rest Hd _ IH]; intros s Hok.
    - exists s. split; [reflexivity | exact Hok].
    - destruct (update_timer_ok c s delta pos Hs Hp Hd Hok)
        as (s1 & d & E & Hok1).
      destruct (IH s1 Hok1) as (s2 & E2 & Hok2).
      exists s2. cbn. rewrite E. cbn. split; assumption. }
  destruct (G (Storm.init c)) as (s & E & (_ & Hn & Hpos & Hle)).
  - unfold storm_timer_ok, Storm.init; cbn.
    repeat split; try assumption. apply Qle_refl.
  - exists s. repeat split; assumption.
Qed.

Lemma storm_timers_agree_with_phase_witness :
  exists s,
    Storm.run (Storm.init wide_storm)
      [(12, THREE.mkV3 0 0 0); (9, THREE.mkV3 0 0 0); (50, THREE.mkV3 0 0 0)]
    = Some s /\
    Storm.getNextPhaseTime s
    = phase_duration wide_storm (Storm.getCurrentPhase s) /\
    0 < Storm.getTimeRemaining s /\
    Storm.getTimeRemaining s <= Storm.getNextPhaseTime s.
Proof.
  apply (storm_timers_agree_with_phase wide_storm
           [(12, THREE.mkV3 0 0 0); (9, THREE.mkV3 0 0 0);
            (50, THREE.mkV3 0 0 0)]).
  - vm_compute; reflexivity.
  - vm_compute; reflexivity.
  - repeat constructor; vm_compute; discriminate.
Defined.

(** ** Weapon: further properties *)

Lemma whole_plus (a b : Q) : whole a -> whole b -> whole (a + b).
Proof.
  intros (j & Hj) (k & Hk). exists (j + k)%Z.
  rewrite Hj, Hk, inject_Z_plus. reflexivity.
Qed.

Lemma whole_minus (a b : Q) : whole a -> whole b -> whole (a - b).
Proof.
  intros (j & Hj) (k & Hk). exists (j - k)%Z.
  rewrite Hj, Hk. unfold Z.sub. rewrite inject_Z_plus, inject_Z_opp.
  reflexivity.
Qed.

Lemma whole_one : whole 1.
Proof. exists 1%Z. reflexivity. Qed.

Lemma whole_Qmin (a b : Q) : whole a -> whole b -> whole (Qmin a b).
Proof.
  intros (j & Hj) (k & Hk).
  destruct (Q.min_spec a b) as [[_ E]|[_ E]];
    [exists j | exists k]; rewrite E; assumption.
Qed.

(** A positive whole number is at least 1. *)
Lemma whole_positive (a : Q) : whole a -> 0 < a -> 1 <= a.
Proof.
  intros (k & Hk) Hpos. rewrite Hk in *.
  change 0 with (inject_Z 0) in Hpos. change 1 with (inject_Z 1).
  rewrite <- Zlt_Qlt in Hpos. rewrite <- Zle_Qle. lia.
Qed.

Lemma Qmin_le_l (a b : Q) : Qmin a b <= a.
Proof. apply Q.le_min_l. Qed.

Lemma Qmin_le_r (a b : Q) : Qmin a b <= b.
Proof. apply Q.le_min_r. Qed.

(** [update] can change the rounds only by completing a reload. *)
Lemma update_reload_cases (w : Weapon.t) (delta : Q) :
  (Weapon.ammo (Weapon.update_reload w delta) = Weapon.ammo w /\
   Weapon.reserveAmmo (Weapon.update_reload w delta) = Weapon.reserveAmmo w /\
   Weapon.isReloading (Weapon.update_reload w delta) = Weapon.isReloading w)
  \/
  (Weapon.isReloading w = true /\
   Weapon.reloadTime (Weapon.config w) <= Weapon.lastShotTime w + delta /\
   Weapon.update_reload w delta
   = Weapon.completeReload
       (Weapon.set_lastShotTime w (Weapon.lastShotTime w + delta))).
Proof.
  unfold Weapon.update_reload.
  destruct (Weapon.isReloading w) eqn:R;
    [|left; rewrite R; repeat split; reflexivity].
  destruct (JS.geb _ _) eqn:G.
  - right. apply geb_true in G. cbn in G. repeat split; assumption.
  - left. cbn. repeat split. exact R.
Qed.

Lemma update_config (w : Weapon.t) (delta : Q) :
  Weapon.config (Weapon.update w delta) = Weapon.config w.
Proof.
  unfold Weapon.update.
  destruct (update_flash_frame (Weapon.update_reload w delta) delta)
    as (Hc & _). rewrite Hc.
  unfold Weapon.update_reload.
  destruct (Weapon.isReloading w); [|reflexivity].
  destruct (JS.geb _ _); reflexivity.
Qed.

(** X7: No [update] creates or loses a round: the sum of the magazine and the
    reserve is unchanged, and a weapon that is not reloading keeps both. *)
Theorem weapon_update_conserves_rounds :
  forall (w : Weapon.t) (delta : Q),
    Weapon.ammo (Weapon.update w delta)
    + Weapon.reserveAmmo (Weapon.update w delta)
    == Weapon.ammo w + Weapon.reserveAmmo w /\
    (Weapon.isReloading w = false ->
     Weapon.ammo (Weapon.update w delta) = Weapon.ammo w /\
     Weapon.reserveAmmo (Weapon.update w delta) = Weapon.reserveAmmo w /\
     Weapon.isReloading (Weapon.update w delta) = false).
Proof.
  intros w delta. unfold Weapon.update.
  destruct (update_flash_frame (Weapon.update_reload w delta) delta)
    as (_ & Ha & Hr & Hl).
  rewrite Ha, Hr, Hl.
  destruct (update_reload_cases w delta) as [(A & R & L) | (Hrel & _ & E)].
  - rewrite A, R, L. split; [reflexivity|].
    intros H. repeat split; try reflexivity. exact H.
  - rewrite E. cbn. split; [lra|]. intros H. congruence.
Qed.

(** X8: [shoot()] does nothing at all while the weapon is reloading. *)
Theorem shoot_while_reloading_is_noop :
  forall (w : Weapon.t) (now : Q) (hits : list Weapon.Hit),
    Weapon.isReloading w = true ->
    Weapon.shoot w now hits = (w, Weapon.NoEffect).
Proof.
  intros w now hits H. unfold Weapon.shoot. rewrite H. cbn.
  destruct (JS.leb (Weapon.ammo w) 0); [|reflexivity].
  rewrite reload_refused by (left; exact H). reflexivity.
Qed.

Lemma shoot_while_reloading_is_noop_witness :
  Weapon.shoot (Weapon.reload (fst (Weapon.shoot last_round_rifle 3 [])))
    4 [Weapon.mkHit true]
  = (Weapon.reload (fst (Weapon.shoot last_round_rifle 3 [])),
     Weapon.NoEffect).
Proof.
  apply (shoot_while_reloading_is_noop
           (Weapon.reload (fst (Weapon.shoot last_round_rifle 3 [])))
           4 [Weapon.mkHit true]).
  vm_compute; reflexivity.
Defined.

Lemma completeReload_counts (w : Weapon.t) :
  counts_ok w -> counts_ok (Weapon.completeReload w).
Proof.
  unfold counts_ok, Weapon.completeReload.
  intros (Wa & Wr & Wm & Wmr & A0 & A1 & R0 & R1). cbn.
  set (moved := Qmin (Weapon.maxAmmo (Weapon.config w) - Weapon.ammo w)
                     (Weapon.reserveAmmo w)).
  assert (Wmv : whole moved)
    by (apply whole_Qmin; [apply whole_minus|]; assumption).
  assert (M0 : 0 <= moved) by (apply Qmin_glb; lra).
  pose proof (Qmin_le_l (Weapon.maxAmmo (Weapon.config w) - Weapon.ammo w)
                (Weapon.reserveAmmo w)) as M1.
  pose proof (Qmin_le_r (Weapon.maxAmmo (Weapon.config w) - Weapon.ammo w)
                (Weapon.reserveAmmo w)) as M2.
  fold moved in M1, M2.
  repeat split; try assumption; try lra.
  - apply whole_plus; assumption.
  - apply whole_minus; assumption.
Qed.

Lemma counts_ok_transfer (w w' : Weapon.t) :
  Weapon.config w' = Weapon.config w ->
  Weapon.ammo w' = Weapon.ammo w ->
  Weapon.reserveAmmo w' = Weapon.reserveAmmo w ->
  counts_ok w -> counts_ok w'.
Proof.
  unfold counts_ok. intros -> -> ->. exact (fun H => H).
Qed.

Lemma weapon_call_counts (w : Weapon.t) (c : WeaponCall) :
  sound_call c -> counts_ok w -> counts_ok (weapon_call w c).
Proof.
  intros Hc Hok. destruct c as [loaded|now hits| |delta|amount| |]; cbn.
  - destruct loaded; [|exact Hok]. exact Hok.
  - destruct (Weapon.fires w now) eqn:F.
    + destruct (shoot_fired w now hits F) as (Ha & Hr & _ & _ & Hcf & _).
      unfold Weapon.fires in F. apply andb_true_iff in F.
      destruct F as (F & _). apply negb_true_iff, orb_false_iff in F.
      destruct F as (_ & F). apply leb_false in F.
      destruct Hok as (Wa & Wr & Wm & Wmr & A0 & A1 & R0 & R1).
      pose proof (whole_positive _ Wa F) as H1.
      unfold counts_ok. rewrite Ha, Hr, Hcf.
      repeat split; try assumption; try lra.
      apply whole_minus; [assumption | apply whole_one].
    + rewrite (shoot_rejected w now hits F). cbn [fst].
      destruct (JS.leb (Weapon.ammo w) 0); [|exact Hok].
      destruct (reload_frame w) as (H1 & _ & H2 & H3 & _).
      exact (counts_ok_transfer _ _ H1 H2 H3 Hok).
  - destruct (reload_frame w) as (H1 & _ & H2 & H3 & _).
    exact (counts_ok_transfer _ _ H1 H2 H3 Hok).
  - unfold Weapon.update.
    destruct (update_flash_frame (Weapon.update_reload w delta) delta)
      as (H1 & H2 & H3 & _).
    apply (counts_ok_transfer _ _ H1 H2 H3).
    unfold Weapon.update_reload.
    destruct (Weapon.isReloading w); [|exact Hok].
    destruct (JS.geb _ _); [apply completeReload_counts|]; exact Hok.
  - destruct Hc as (Wamt & Hamt).
    destruct Hok as (Wa & Wr & Wm & Wmr & A0 & A1 & R0 & R1).
    unfold counts_ok, Weapon.addAmmo. cbn.
    repeat split; try assumption.
    + apply whole_Qmin; [|apply whole_plus]; assumption.
    + apply Qmin_glb; lra.
    + apply Qmin_le_l.
  - unfold Weapon.show. destruct (Weapon.model w); exact Hok.
  - unfold Weapon.hide. destruct (Weapon.model w); exact Hok.
Qed.

(** X9: The spec's "ammo is never negative": a weapon built from a
    configuration with whole numbers of rounds within its capacities keeps,
    through every sequence of calls (ammunition picked up in whole
    non-negative amounts), whole numbers of rounds with
    [0 <= ammo <= maxAmmo] and [0 <= reserveAmmo <= maxReserveAmmo]. *)
Theorem weapon_counts_stay_in_range :
  forall (c : Weapon.WeaponConfig) (calls : list WeaponCall),
    counts_ok (Weapon.new c) ->
    Forall sound_call calls ->
    let w := weapon_calls (Weapon.new c) calls in
    0 <= Weapon.ammo w /\
    Weapon.ammo w <= Weapon.maxAmmo c /\
    0 <= Weapon.reserveAmmo w /\
    Weapon.reserveAmmo w <= Weapon.maxReserveAmmo c /\
    whole (Weapon.ammo w) /\
    whole (Weapon.reserveAmmo w).
Proof.
  intros c calls Hnew Hall.
  assert (G : forall w, counts_ok w ->
                counts_ok (weapon_calls w calls) /\
                Weapon.config (weapon_calls w calls) = Weapon.config w).
  { unfold weapon_calls.
    induction Hall as [|call rest Hc _ IH]; intros w Hok; cbn.
    - split; [exact Hok | reflexivity].
    - destruct (IH (weapon_call w call) (weapon_call_counts w call Hc Hok))
        as (H1 & H2).
      split; [exact H1|]. rewrite H2.
      destruct call as [loaded|now hits| |delta|amount| |]; cbn.
      + destruct loaded; reflexivity.
      + destruct (Weapon.fires w now) eqn:F.
        * destruct (shoot_fired w now hits F) as (_ & _ & _ & _ & Hcf & _).
          exact Hcf.
        * rewrite (shoot_rejected w now hits F). cbn [fst].
          destruct (JS.leb (Weapon.ammo w) 0); [|reflexivity].
          destruct (reload_frame w) as (H & _). exact H.
      + destruct (reload_frame w) as (H & _). exact H.
      + apply update_config.
      + reflexivity.
      + unfold Weapon.show. destruct (Weapon.model w); reflexivity.
      + unfold Weapon.hide. destruct (Weapon.model w); reflexivity. }
  destruct (G (Weapon.new c) Hnew)
    as ((Wa & Wr & _ & _ & A0 & A1 & R0 & R1) & Hcfg).
  cbv zeta. rewrite Hcfg in A1, R1. cbn in A1, R1.
  repeat split; assumption.
Qed.

Lemma weapon_counts_stay_in_range_witness :
  let w := weapon_calls (Weapon.new Player.shotgun)
             [CallInit true; CallShoot 2 []; CallShoot 4 [Weapon.mkHit true];
              CallReload; CallAddAmmo 40; CallUpdate 3.5; CallShoot 9 []] in
  0 <= Weapon.ammo w /\
  Weapon.ammo w <= Weapon.maxAmmo Player.shotgun /\
  0 <= Weapon.reserveAmmo w /\
  Weapon.reserveAmmo w <= Weapon.maxReserveAmmo Player.shotgun /\
  whole (Weapon.ammo w) /\
  whole (Weapon.reserveAmmo w).
Proof.
  apply (weapon_counts_stay_in_range Player.shotgun
           [CallInit true; CallShoot 2 []; CallShoot 4 [Weapon.mkHit true];
            CallReload; CallAddAmmo 40; CallUpdate 3.5; CallShoot 9 []]).
  - unfold counts_ok. cbn.
    repeat split;
      first [ exists 8%Z; reflexivity | exists 32%Z; reflexivity
            | exists 64%Z; reflexivity | vm_compute; discriminate ].
  - repeat constructor. exists 40%Z. reflexivity. vm_compute; discriminate.
Defined.

(** X10: The shared timer.  While a reload is in progress and not completed by
    this call, [update(delta)] advances [lastShotTime] by [delta] when the
    muzzle flash is not showing, but by [2 * delta] when it is: both blocks
    of [update] add [delta] to the same field.  The reload goes on either
    way. *)
Theorem reload_timer_runs_double_under_flash :
  forall (w : Weapon.t) (delta : Q),
    Weapon.isReloading w = true ->
    Weapon.lastShotTime w + delta < Weapon.reloadTime (Weapon.config w) ->
    Weapon.isReloading (Weapon.update w delta) = true /\
    Weapon.ammo (Weapon.update w delta) = Weapon.ammo w /\
    (Weapon.muzzleFlash w = Some true ->
     Weapon.lastShotTime (Weapon.update w delta)
     = Weapon.lastShotTime w + delta + delta) /\
    (Weapon.muzzleFlash w <> Some true ->
     Weapon.lastShotTime (Weapon.update w delta)
     = Weapon.lastShotTime w + delta).
Proof.
  intros w delta Hrel Hlt.
  assert (E : Weapon.update_reload w delta
              = Weapon.set_lastShotTime w (Weapon.lastShotTime w + delta)).
  { unfold Weapon.update_reload. rewrite Hrel.
    destruct (JS.geb _ _) eqn:G; [|reflexivity].
    apply geb_true in G. cbn in G. lra. }
  unfold Weapon.update. rewrite E.
  destruct (update_flash_frame
              (Weapon.set_lastShotTime w (Weapon.lastShotTime w + delta))
              delta) as (_ & Ha & _ & Hl).
  rewrite Ha, Hl. cbn [Weapon.isReloading Weapon.ammo Weapon.set_lastShotTime].
  split; [exact Hrel|]. split; [reflexivity|].
  unfold Weapon.update_flash.
  cbn [Weapon.muzzleFlash Weapon.set_lastShotTime Weapon.lastShotTime].
  split.
  - intros F. rewrite F.
    destruct (JS.gtb _ _); [|reflexivity].
    match goal with
    | |- context [Weapon.set_flash_visible ?a false] =>
        destruct (set_flash_visible_frame a false) as (_ & _ & _ & _ & H & _)
    end.
    rewrite H. reflexivity.
  - intros F. destruct (Weapon.muzzleFlash w) as [[|]|];
      [contradiction F; reflexivity | reflexivity | reflexivity].
Qed.

Lemma reload_timer_runs_double_under_flash_witness :
  let w := weapon_calls last_round_rifle
             [CallInit true; CallShoot 5 []; CallShoot 5.2 []] in
  Weapon.isReloading (Weapon.update w 0.5) = true /\
  Weapon.ammo (Weapon.update w 0.5) = Weapon.ammo w /\
  (Weapon.muzzleFlash w = Some true ->
   Weapon.lastShotTime (Weapon.update w 0.5)
   = Weapon.lastShotTime w + 0.5 + 0.5) /\
  (Weapon.muzzleFlash w <> Some true ->
   Weapon.lastShotTime (Weapon.update w 0.5) = Weapon.lastShotTime w + 0.5).
Proof.
  apply (reload_timer_runs_double_under_flash
           (weapon_calls last_round_rifle
              [CallInit true; CallShoot 5 []; CallShoot 5.2 []]) 0.5).
  - vm_compute; reflexivity.
  - vm_compute; reflexivity.
Defined.

(** A state the calls reach in which the weapon is reloading while its
    muzzle flash shows: fire the last round, pull the trigger again before
    the next [update]. *)
Lemma reloading_with_flash_is_reachable :
  let w := weapon_calls last_round_rifle
             [CallInit true; CallShoot 5 []; CallShoot 5.2 []] in
  Weapon.isReloading w = true /\ Weapon.muzzleFlash w = Some true.
Proof. vm_compute. split; reflexivity. Qed.

Lemma weapon_updates_app (w : Weapon.t) (ds : list Q) (d : Q) :
  weapon_updates w (ds ++ [d]) = Weapon.update (weapon_updates w ds) d.
Proof. unfold weapon_updates. rewrite fold_left_app. reflexivity. Qed.

Lemma update_flash_hidden (w : Weapon.t) (delta : Q) :
  Weapon.muzzleFlash w <> Some true -> Weapon.update_flash w delta = w.
Proof.
  intros F. unfold Weapon.update_flash.
  destruct (Weapon.muzzleFlash w) as [[|]|];
    [contradiction F; reflexivity | reflexivity | reflexivity].
Qed.

(** X11: A reload takes [reloadTime]: with the muzzle flash not showing, updates
    with non-negative deltas whose sum stays below [reloadTime] (counted
    from the timer's value) leave the weapon reloading with the rounds as
    they were, and the timer has advanced by exactly their sum. *)
Theorem reload_lasts_reloadTime :
  forall (deltas : list Q) (w : Weapon.t),
    Weapon.isReloading w = true ->
    Weapon.muzzleFlash w <> Some true ->
    Forall (fun d => 0 <= d) deltas ->
    Weapon.lastShotTime w + sum_deltas deltas
    < Weapon.reloadTime (Weapon.config w) ->
    let w' := weapon_updates w deltas in
    Weapon.isReloading w' = true /\
    Weapon.ammo w' = Weapon.ammo w /\
    Weapon.reserveAmmo w' = Weapon.reserveAmmo w /\
    Weapon.lastShotTime w' == Weapon.lastShotTime w + sum_deltas deltas.
Proof.
  induction deltas as [|d rest IH]; intros w Hrel Hflash Hall Hsum.
  - cbn. repeat split; try assumption. lra.
  - inversion Hall as [|? ? Hd Hrest]; subst.
    cbn [sum_deltas fold_right] in Hsum. fold (sum_deltas rest) in Hsum.
    assert (Hnn : 0 <= sum_deltas rest).
    { clear -Hrest. induction Hrest as [|x l Hx _ IHl]; cbn; [lra|].
      fold (sum_deltas l). lra. }
    assert (E : Weapon.update w d
                = Weapon.set_lastShotTime w (Weapon.lastShotTime w + d)).
    { unfold Weapon.update, Weapon.update_reload. rewrite Hrel.
      destruct (JS.geb _ _) eqn:G.
      - apply geb_true in G. cbn in G. lra.
      - apply update_flash_hidden. exact Hflash. }
    cbv zeta. unfold weapon_updates. cbn [fold_left]. rewrite E.
    fold (weapon_updates
            (Weapon.set_lastShotTime w (Weapon.lastShotTime w + d)) rest).
    destruct (IH (Weapon.set_lastShotTime w (Weapon.lastShotTime w + d)))
      as (H1 & H2 & H3 & H4); try assumption.
    + cbn. lra.
    + cbn [sum_deltas fold_right]. fold (sum_deltas rest).
      repeat split; try assumption. rewrite H4. cbn. lra.
Qed.

Lemma reload_lasts_reloadTime_witness :
  let w := Weapon.reload
             (fst (Weapon.shoot (Weapon.new Player.pistol) 3 [])) in
  let w' := weapon_updates w [0.5; 0.25; 0.5] in
  Weapon.isReloading w' = true /\
  Weapon.ammo w' = Weapon.ammo w /\
  Weapon.reserveAmmo w' = Weapon.reserveAmmo w /\
  Weapon.lastShotTime w' == Weapon.lastShotTime w + sum_deltas [0.5; 0.25; 0.5].
Proof.
  apply (reload_lasts_reloadTime [0.5; 0.25; 0.5]
           (Weapon.reload
              (fst (Weapon.shoot (Weapon.new Player.pistol) 3 [])))).
  - vm_compute; reflexivity.
  - vm_compute; discriminate.
  - repeat constructor; vm_compute; discriminate.
  - vm_compute; reflexivity.
Defined.



(** ** Player: further properties *)


Lemma currentWeapon_defined (p : Player.t) :
  (0 <= Player.currentWeaponIndex p)%Z ->
  (Player.currentWeaponIndex p < Z.of_nat (List.length (Player.weapons p)))%Z ->
  exists w, Player.currentWeapon p = Some w.
Proof.
  intros H0 H1. unfold Player.currentWeapon.
  destruct (Player.currentWeaponIndex p <? 0)%Z eqn:E;
    [apply Z.ltb_lt in E; lia|].
  destruct (nth_error (Player.weapons p)
              (Z.to_nat (Player.currentWeaponIndex p))) eqn:N.
  - eexists; reflexivity.
  - apply nth_error_None in N. lia.
Qed.

(** With a valid index a call on the current weapon does not throw, and
    changes the inventory only. *)
Lemma withCurrentWeapon_safe (p : Player.t) (f : Weapon.t -> Weapon.t) :
  index_ok p ->
  exists p',
    Player.withCurrentWeapon p f = Some p' /\
    same_stats_and_keys p p' /\
    Player.position p' = Player.position p /\
    Player.velocity p' = Player.velocity p /\
    Player.isClimbing p' = Player.isClimbing p /\
    List.length (Player.weapons p') = List.length (Player.weapons p).
Proof.
  intros Hi.
  assert (E : exists p', Player.withCurrentWeapon p f = Some p').
  { unfold Player.withCurrentWeapon.
    destruct (Player.weapons p) eqn:W; [eexists; reflexivity|].
    destruct (Player.currentWeaponIndex p >=? 0)%Z eqn:G;
      [|eexists; reflexivity].
    destruct Hi as [Hi | Hi]; [rewrite W in Hi; discriminate|].
    destruct (currentWeapon_defined p) as (w & Hw);
      [apply Z.geb_le in G; lia | exact Hi|].
    rewrite Hw. cbn. eexists; reflexivity. }
  destruct E as (p' & E). exists p'. split; [exact E|].
  destruct (withCurrentWeapon_frame p p' f E) as (F & P & V & C & _ & L).
  split; [exact F|]. repeat split; assumption.
Qed.

Lemma index_ok_transfer (p p' : Player.t) :
  Player.currentWeaponIndex p' = Player.currentWeaponIndex p ->
  List.length (Player.weapons p') = List.length (Player.weapons p) ->
  index_ok p -> index_ok p'.
Proof.
  unfold index_ok. intros Hi Hl [H | H].
  - left. rewrite H in Hl. destruct (Player.weapons p'); [reflexivity|].
    discriminate.
  - right. rewrite Hi, Hl. exact H.
Qed.








Lemma gtb_compat (a b : Q) : a == b -> JS.gtb a 0 = JS.gtb b 0.
Proof.
  intros E. destruct (JS.gtb b 0) eqn:G.
  - apply gtb_true. apply gtb_true in G. rewrite E. exact G.
  - apply gtb_false. apply gtb_false in G. rewrite E. exact G.
Qed.

(** One step of the collision loop along a unit axis: the component along
    the axis is cleared when the way is blocked and the velocity points
    that way. *)
Lemma collide_x (world : Player.World) (pos : THREE.Vector3)
    (vx vz sx : Q) :
  sx = 1 \/ sx = -1 ->
  Player.collide world pos (vx, vz) (THREE.mkV3 sx 0 0)
  = ((if blocked world pos (THREE.mkV3 sx 0 0) && JS.gtb (sx * vx) 0
      then 0 else vx), vz).
Proof.
  intros Hs. unfold Player.collide, blocked.
  destruct (Player.intersectObjects world pos (THREE.mkV3 sx 0 0))
    as [|i rest]; [reflexivity|].
  destruct (JS.ltb (Player.distance i) _); [|reflexivity].
  cbn [andb].
  rewrite (gtb_compat (THREE.dot (THREE.mkV3 sx 0 0) (THREE.mkV3 vx 0 vz))
             (sx * vx)) by (unfold THREE.dot; cbn; ring).
  destruct (JS.gtb (sx * vx) 0); [|reflexivity].
  destruct Hs as [-> | ->]; reflexivity.
Qed.

Lemma collide_z (world : Player.World) (pos : THREE.Vector3)
    (vx vz sz : Q) :
  sz = 1 \/ sz = -1 ->
  Player.collide world pos (vx, vz) (THREE.mkV3 0 0 sz)
  = (vx, (if blocked world pos (THREE.mkV3 0 0 sz) && JS.gtb (sz * vz) 0
          then 0 else vz)).
Proof.
  intros Hs. unfold Player.collide, blocked.
  destruct (Player.intersectObjects world pos (THREE.mkV3 0 0 sz))
    as [|i rest]; [reflexivity|].
  destruct (JS.ltb (Player.distance i) _); [|reflexivity].
  cbn [andb].
  rewrite (gtb_compat (THREE.dot (THREE.mkV3 0 0 sz) (THREE.mkV3 vx 0 vz))
             (sz * vz)) by (unfold THREE.dot; cbn; ring).
  destruct (JS.gtb (sz * vz) 0); [|reflexivity].
  destruct Hs as [-> | ->]; reflexivity.
Qed.

(** [checkCollisions] in closed form: the four iterations of the loop. *)
Lemma checkCollisions_closed_form
    (world : Player.World) (pos : THREE.Vector3) (vx vz : Q) :
  Player.checkCollisions world pos vx vz
  = (let v1 := if blocked world pos (THREE.mkV3 1 0 0) && JS.gtb vx 0
               then 0 else vx in
     if blocked world pos (THREE.mkV3 (-1) 0 0) && JS.gtb (-1 * v1) 0
     then 0 else v1,
     let w1 := if blocked world pos (THREE.mkV3 0 0 1) && JS.gtb vz 0
               then 0 else vz in
     if blocked world pos (THREE.mkV3 0 0 (-1)) && JS.gtb (-1 * w1) 0
     then 0 else w1).
Proof.
  unfold Player.checkCollisions. cbn [fold_left].
  rewrite (collide_x world pos vx vz 1) by (left; reflexivity).
  rewrite collide_x by (right; reflexivity).
  rewrite (collide_z world pos _ vz 1) by (left; reflexivity).
  rewrite collide_z by (right; reflexivity).
  assert (P1 : forall v, JS.gtb (1 * v) 0 = JS.gtb v 0)
    by (intros v; apply gtb_compat; ring).
  rewrite !P1. reflexivity.
Qed.

(** A velocity component comes back unchanged or as 0. *)
Lemma checkCollisions_all_or_nothing
    (world : Player.World) (pos : THREE.Vector3) (vx vz : Q) :
  (fst (Player.checkCollisions world pos vx vz) = vx \/
   fst (Player.checkCollisions world pos vx vz) = 0) /\
  (snd (Player.checkCollisions world pos vx vz) = vz \/
   snd (Player.checkCollisions world pos vx vz) = 0).
Proof.
  rewrite checkCollisions_closed_form. cbn [fst snd]. cbv zeta.
  split;
    repeat match goal with
    | |- context [if ?c then _ else _] => destruct c
    end; auto.
Qed.

(** X15: Collision resolution.  Each intended velocity component comes back
    either unchanged or as 0, never reduced in part; it is 0 when the
    nearest object along the axis, on the side the player moves to, is
    closer than 1.5; and it is unchanged when no side is blocked, in
    particular when the ray casts find nothing. *)
Theorem checkCollisions_resolves :
  forall (world : Player.World) (pos : THREE.Vector3) (vx vz : Q),
    let r := Player.checkCollisions world pos vx vz in
    (fst r = vx \/ fst r = 0) /\
    (snd r = vz \/ snd r = 0) /\
    (blocked world pos (THREE.mkV3 1 0 0) = true -> 0 < vx -> fst r = 0) /\
    (blocked world pos (THREE.mkV3 (-1) 0 0) = true -> vx < 0 -> fst r = 0) /\
    (blocked world pos (THREE.mkV3 0 0 1) = true -> 0 < vz -> snd r = 0) /\
    (blocked world pos (THREE.mkV3 0 0 (-1)) = true -> vz < 0 -> snd r = 0) /\
    (blocked world pos (THREE.mkV3 1 0 0) = false ->
     blocked world pos (THREE.mkV3 (-1) 0 0) = false ->
     fst r = vx) /\
    (blocked world pos (THREE.mkV3 0 0 1) = false ->
     blocked world pos (THREE.mkV3 0 0 (-1)) = false ->
     snd r = vz).
Proof.
  intros world pos vx vz r. subst r.
  rewrite checkCollisions_closed_form. cbn [fst snd]. cbv zeta.
  assert (N0 : JS.gtb (-1 * 0) 0 = false) by reflexivity.
  destruct (blocked world pos (THREE.mkV3 1 0 0));
    destruct (blocked world pos (THREE.mkV3 (-1) 0 0));
    destruct (blocked world pos (THREE.mkV3 0 0 1));
    destruct (blocked world pos (THREE.mkV3 0 0 (-1)));
    cbn [andb];
    destruct (JS.gtb vx 0) eqn:Gx; destruct (JS.gtb vz 0) eqn:Gz;
    rewrite ?N0;
    destruct (JS.gtb (-1 * vx) 0) eqn:Nx;
    destruct (JS.gtb (-1 * vz) 0) eqn:Nz;
    try apply gtb_true in Gx; try apply gtb_false in Gx;
    try apply gtb_true in Gz; try apply gtb_false in Gz;
    try apply gtb_true in Nx; try apply gtb_false in Nx;
    try apply gtb_true in Nz; try apply gtb_false in Nz;
    (repeat split; intros; auto; try discriminate; lra).
Qed.

Lemma checkCollisions_resolves_witness :
  let r := Player.checkCollisions wall_ahead (THREE.mkV3 30 2 30) 5 5 in
  (fst r = 5 \/ fst r = 0) /\
  (snd r = 5 \/ snd r = 0) /\
  (blocked wall_ahead (THREE.mkV3 30 2 30) (THREE.mkV3 1 0 0) = true ->
   0 < 5 -> fst r = 0) /\
  (blocked wall_ahead (THREE.mkV3 30 2 30) (THREE.mkV3 (-1) 0 0) = true ->
   5 < 0 -> fst r = 0) /\
  (blocked wall_ahead (THREE.mkV3 30 2 30) (THREE.mkV3 0 0 1) = true ->
   0 < 5 -> snd r = 0) /\
  (blocked wall_ahead (THREE.mkV3 30 2 30) (THREE.mkV3 0 0 (-1)) = true ->
   5 < 0 -> snd r = 0) /\
  (blocked wall_ahead (THREE.mkV3 30 2 30) (THREE.mkV3 1 0 0) = false ->
   blocked wall_ahead (THREE.mkV3 30 2 30) (THREE.mkV3 (-1) 0 0) = false ->
   fst r = 5) /\
  (blocked wall_ahead (THREE.mkV3 30 2 30) (THREE.mkV3 0 0 1) = false ->
   blocked wall_ahead (THREE.mkV3 30 2 30) (THREE.mkV3 0 0 (-1)) = false ->
   snd r = 5).
Proof.
  cbv zeta.
  apply (checkCollisions_resolves wall_ahead (THREE.mkV3 30 2 30) 5 5).
Defined.

(** The scenario of the spec: an obstacle 0.4 ahead along +Z and an
    intended velocity towards it give a Z velocity of exactly 0, while the
    X velocity passes. *)
Lemma wall_ahead_stops_the_player :
  Player.checkCollisions wall_ahead (THREE.mkV3 30 2 30) 5 5 = (5, 0).
Proof. reflexivity. Qed.

(** [update] laid out in full: the player [q] just before the floor clamp.
    Its vertical velocity and position are as in [update_before_clamp]; its
    horizontal velocity is what [checkCollisions] returns for some intended
    velocity, which is 0 along X when the left and right keys agree and 0
    along Z when the forward and backward keys agree. *)
Lemma update_layout
    (Math_sqrt : Q -> Q) (p : Player.t) (delta : Q)
    (world : Player.World) (camera : Player.Camera) :
  let p1 := Player.applyGravity (Player.checkClimbing p world camera) delta in
  exists (q : Player.t) (pos : THREE.Vector3) (ix iz : Q),
    Player.update Math_sqrt p delta world camera
    = Player.withCurrentWeapon (Player.clampToGround q)
        (fun w => Weapon.update w delta) /\
    (same_stats_and_keys p q /\
     Player.weapons q = Player.weapons p /\
     Player.isClimbing q = Player.isClimbing p1 /\
     THREE.y (Player.velocity q) = verticalVelocityUsed p1 /\
     THREE.y (Player.position q)
     = THREE.y (Player.position p) + verticalVelocityUsed p1 * delta
       + THREE.y (Player.rightAxis camera)
         * (THREE.x (Player.velocity q) * delta)
       + THREE.y (Player.forwardAxis camera)
         * (THREE.z (Player.velocity q) * delta)) /\
    THREE.x (Player.velocity q)
    = fst (Player.checkCollisions world pos ix iz) /\
    THREE.z (Player.velocity q)
    = snd (Player.checkCollisions world pos ix iz) /\
    (Player.moveLeft p = Player.moveRight p -> ix == 0) /\
    (Player.moveForward p = Player.moveBackward p -> iz == 0).
Proof.
  intros p1.
  destruct (checkClimbing_frame p world camera) as (F1 & W1 & Y1).
  destruct (applyGravity_frame (Player.checkClimbing p world camera) delta)
    as (F2 & W2 & P2 & C2).
  fold p1 in F2, W2, P2, C2.
  pose proof (same_stats_and_keys_trans _ _ _ F1 F2) as F.
  unfold Player.update. fold p1.
  match goal with
  | |- context [Player.checkCollisions ?w (Player.position ?p3') ?a ?b] =>
      set (iz := b); set (ix := a); set (p3 := p3') in *;
      destruct (Player.checkCollisions w (Player.position p3) ix iz)
        as [vx vz] eqn:EC
  end.
  eexists. exists (Player.position p3), ix, iz.
  split; [reflexivity|]. rewrite EC. clear EC.
  assert (H : (Player.moveLeft p = Player.moveRight p -> ix == 0) /\
              (Player.moveForward p = Player.moveBackward p -> iz == 0)).
  { destruct F as (_ & _ & _ & _ & _ & A6 & A7 & A8 & A9 & _).
    assert (K : Player.moveLeft p3 = Player.moveLeft p /\
                Player.moveRight p3 = Player.moveRight p /\
                exists s : Q,
                  THREE.x (Player.direction p3)
                  = (JS.Number (Player.moveLeft p)
                     - JS.Number (Player.moveRight p)) * (1 / s)).
    { subst p3. rewrite <- A8, <- A9.
      repeat match goal with
      | |- context [if ?c then _ else _] =>
          lazymatch c with
          | JS.eqb _ _ => fail
          | _ => destruct c
          end
      end; cbn; repeat split; eexists; reflexivity. }
    destruct K as (K1 & K2 & s & K5).
    split.
    - intros E. subst ix. rewrite K1, K2, K5, E.
      destruct (Player.moveRight p); cbn [orb JS.Number];
        [ring | reflexivity].
    - intros E. subst iz.
      cbn [Player.set_direction Player.moveForward Player.moveBackward
           Player.direction].
      unfold Player.normalize, THREE.multiplyScalar. cbn [THREE.z].
      rewrite A6, A7, E.
      destruct (Player.moveBackward p); cbn [orb JS.Number];
        [ring | reflexivity]. }
  split; [|split; [reflexivity | split; [reflexivity | exact H]]].
  clear H. subst p3. clearbody ix iz.
  unfold verticalVelocityUsed, same_stats_and_keys in *.
  destruct F as (A1 & A2 & A3 & A4 & A5 & A6 & A7 & A8 & A9 & A10 & A11).
  cbn [Player.set_direction Player.moveForward Player.moveBackward
       Player.moveLeft Player.moveRight Player.sprint Player.isCrouching
       Player.isClimbing Player.velocity Player.position Player.direction
       Player.isJumping Player.health Player.maxHealth Player.armor
       Player.maxArmor Player.weapons Player.currentWeaponIndex].
  destruct (Player.moveForward p1 || Player.moveBackward p1);
    [destruct (Player.isClimbing p1) eqn:C;
     [destruct (Player.moveForward p1) eqn:M|]|];
    cbn; rewrite ?P2, ?Y1, ?C;
    (repeat split; try assumption; try congruence).
Qed.

Lemma clampToGround_spec (p : Player.t) :
  Player.stanceHeight (Player.clampToGround p) / 2
  <= THREE.y (Player.position (Player.clampToGround p)) /\
  Player.isCrouching (Player.clampToGround p) = Player.isCrouching p /\
  THREE.x (Player.velocity (Player.clampToGround p))
  = THREE.x (Player.velocity p) /\
  THREE.z (Player.velocity (Player.clampToGround p))
  = THREE.z (Player.velocity p).
Proof.
  unfold Player.clampToGround.
  destruct (JS.ltb (THREE.y (Player.position p)) (Player.stanceHeight p / 2))
    eqn:E.
  - unfold Player.stanceHeight. cbn. repeat split; try reflexivity.
    apply Qle_refl.
  - apply ltb_false in E. repeat split; try reflexivity. exact E.
Qed.

(** X16: [update] never leaves the player below the floor: whatever the
    velocities, the delta and the world, the player ends at or above half
    the height of its stance. *)
Theorem update_keeps_player_above_floor :
  forall (Math_sqrt : Q -> Q) (p : Player.t) (delta : Q)
         (world : Player.World) (camera : Player.Camera),
    index_ok p ->
    exists p',
      Player.update Math_sqrt p delta world camera = Some p' /\
      Player.isCrouching p' = Player.isCrouching p /\
      Player.stanceHeight p' / 2 <= THREE.y (Player.position p').
Proof.
  intros Math_sqrt p delta world camera Hi.
  destruct (update_layout Math_sqrt p delta world camera)
    as (q & pos & ix & iz & E & (F & W & _) & _).
  destruct (clampToGround_frame q) as (F2 & W2 & _).
  destruct (clampToGround_spec q) as (S1 & S2 & _).
  assert (Hi2 : index_ok (Player.clampToGround q)).
  { apply (index_ok_transfer p); [| |exact Hi].
    - destruct F as (_ & _ & _ & _ & _ & _ & _ & _ & _ & _ & H).
      destruct F2 as (_ & _ & _ & _ & _ & _ & _ & _ & _ & _ & H2).
      congruence.
    - rewrite W2, W. reflexivity. }
  destruct (withCurrentWeapon_safe (Player.clampToGround q)
              (fun w => Weapon.update w delta) Hi2)
    as (p' & E' & F3 & P3 & _).
  exists p'. rewrite E. split; [exact E'|].
  destruct F3 as (_ & _ & _ & _ & C3 & _).
  destruct F as (_ & _ & _ & _ & C1 & _).
  split; [congruence|].
  unfold Player.stanceHeight in *. rewrite C3, P3. exact S1.
Qed.

Lemma update_keeps_player_above_floor_witness :
  exists p',
    Player.update (fun q => q)
      (Player.set_velocity (Player.toggleCrouch Player.new)
         (THREE.mkV3 0 (-40) 0))
      0.5 empty_world level_camera = Some p' /\
    Player.isCrouching p'
    = Player.isCrouching
        (Player.set_velocity (Player.toggleCrouch Player.new)
           (THREE.mkV3 0 (-40) 0)) /\
    Player.stanceHeight p' / 2 <= THREE.y (Player.position p').
Proof.
  apply (update_keeps_player_above_floor (fun q => q)
           (Player.set_velocity (Player.toggleCrouch Player.new)
              (THREE.mkV3 0 (-40) 0))
           0.5 empty_world level_camera).
  left. reflexivity.
Defined.

(** X17: With no movement key held, or with opposite keys held together,
    [update] leaves no horizontal velocity along that axis, whatever
    [Math.sqrt] returns. *)
Theorem update_without_keys_stops :
  forall (Math_sqrt : Q -> Q) (p : Player.t) (delta : Q)
         (world : Player.World) (camera : Player.Camera),
    index_ok p ->
    exists p',
      Player.update Math_sqrt p delta world camera = Some p' /\
      (Player.moveLeft p = Player.moveRight p ->
       THREE.x (Player.velocity p') == 0) /\
      (Player.moveForward p = Player.moveBackward p ->
       THREE.z (Player.velocity p') == 0).
Proof.
  intros Math_sqrt p delta world camera Hi.
  destruct (update_layout Math_sqrt p delta world camera)
    as (q & pos & ix & iz & E & (F & W & _) & Vx & Vz & Hx & Hz).
  destruct (clampToGround_frame q) as (F2 & W2 & _).
  destruct (clampToGround_spec q) as (_ & _ & S3 & S4).
  assert (Hi2 : index_ok (Player.clampToGround q)).
  { apply (index_ok_transfer p); [| |exact Hi].
    - destruct F as (_ & _ & _ & _ & _ & _ & _ & _ & _ & _ & H).
      destruct F2 as (_ & _ & _ & _ & _ & _ & _ & _ & _ & _ & H2).
      congruence.
    - rewrite W2, W. reflexivity. }
  destruct (withCurrentWeapon_safe (Player.clampToGround q)
              (fun w => Weapon.update w delta) Hi2)
    as (p' & E' & _ & _ & V3 & _).
  exists p'. rewrite E. split; [exact E'|].
  rewrite V3, S3, S4, Vx, Vz.
  destruct (checkCollisions_all_or_nothing world pos ix iz) as (Rx & Rz).
  split; intros K.
  - destruct Rx as [R | R]; rewrite R; [apply Hx; exact K | reflexivity].
  - destruct Rz as [R | R]; rewrite R; [apply Hz; exact K | reflexivity].
Qed.

Lemma update_without_keys_stops_witness :
  exists p',
    Player.update (fun q => q)
      (Player.setMovementFlags Player.new true true false false true)
      0.1 wall_ahead level_camera = Some p' /\
    (Player.moveLeft
       (Player.setMovementFlags Player.new true true false false true)
     = Player.moveRight
         (Player.setMovementFlags Player.new true true false false true) ->
     THREE.x (Player.velocity p') == 0) /\
    (Player.moveForward
       (Player.setMovementFlags Player.new true true false false true)
     = Player.moveBackward
         (Player.setMovementFlags Player.new true true false false true) ->
     THREE.z (Player.velocity p') == 0).
Proof.
  apply (update_without_keys_stops (fun q => q)
           (Player.setMovementFlags Player.new true true false false true)
           0.1 wall_ahead level_camera).
  left. reflexivity.
Defined.

(** X18: The forward half of the climbing rule: next to a climbable surface, at
    or above the floor and with the forward key held, [update] puts the
    player in the climbing state, gravity does not apply, the vertical
    velocity is [climbSpeed] and the player rises by [climbSpeed * delta]
    (the camera axes being horizontal). *)
Theorem update_climbs_with_forward_key :
  forall (Math_sqrt : Q -> Q) (p : Player.t) (delta : Q)
         (world : Player.World) (camera : Player.Camera),
    index_ok p ->
    Player.canClimb
      (Player.intersectObjects world (Player.position p)
         (Player.forward camera)) = true ->
    Player.moveForward p = true ->
    THREE.y (Player.rightAxis camera) == 0 ->
    THREE.y (Player.forwardAxis camera) == 0 ->
    Player.stanceHeight p / 2 <= THREE.y (Player.position p) ->
    0 <= delta ->
    exists p',
      Player.update Math_sqrt p delta world camera = Some p' /\
      Player.isClimbing p' = true /\
      THREE.y (Player.velocity p') = Player.climbSpeed /\
      THREE.y (Player.position p')
      == THREE.y (Player.position p) + Player.climbSpeed * delta.
Proof.
  intros Math_sqrt p delta world camera Hi Hcan Hfwd Hr Hf Hfloor Hd.
  destruct (update_layout Math_sqrt p delta world camera)
    as (q & pos & ix & iz & E & (F & W & C & V & Y) & _).
  destruct (checkClimbing_frame p world camera) as (F1 & _).
  destruct (applyGravity_frame (Player.checkClimbing p world camera) delta)
    as (F2 & _ & _ & C2).
  assert (C1 : Player.isClimbing (Player.checkClimbing p world camera) = true).
  { unfold Player.checkClimbing. rewrite Hcan, Hfwd. reflexivity. }
  assert (M1 : Player.moveForward
                 (Player.applyGravity
                    (Player.checkClimbing p world camera) delta) = true).
  { destruct F1 as (_ & _ & _ & _ & _ & A & _).
    destruct F2 as (_ & _ & _ & _ & _ & B & _). congruence. }
  assert (HV : verticalVelocityUsed
                 (Player.applyGravity
                    (Player.checkClimbing p world camera) delta)
               = Player.climbSpeed).
  { unfold verticalVelocityUsed. rewrite M1, C2, C1. reflexivity. }
  rewrite HV in V, Y. rewrite C2, C1 in C.
  assert (HY : THREE.y (Player.position q)
               == THREE.y (Player.position p) + Player.climbSpeed * delta).
  { rewrite Y, Hr, Hf. ring. }
  assert (Hclimb : 0 <= Player.climbSpeed * delta).
  { apply Qmult_le_0_compat; [vm_compute; discriminate | exact Hd]. }
  assert (HC : Player.clampToGround q = q).
  { apply clampToGround_above. unfold Player.stanceHeight in *.
    destruct F as (_ & _ & _ & _ & F5 & _). rewrite F5, HY. lra. }
  assert (Hi2 : index_ok q).
  { apply (index_ok_transfer p); [| |exact Hi].
    - destruct F as (_ & _ & _ & _ & _ & _ & _ & _ & _ & _ & H). exact H.
    - rewrite W. reflexivity. }
  destruct (withCurrentWeapon_safe q (fun w => Weapon.update w delta) Hi2)
    as (p' & E' & _ & P3 & V3 & C3 & _).
  exists p'. rewrite E, HC. split; [exact E'|].
  rewrite C3, V3, P3. repeat split; assumption.
Qed.

Lemma update_climbs_with_forward_key_witness :
  exists p',
    Player.update (fun q => q)
      (Player.setMovementFlags Player.new true false false false false)
      0.5 ladder_world level_camera = Some p' /\
    Player.isClimbing p' = true /\
    THREE.y (Player.velocity p') = Player.climbSpeed /\
    THREE.y (Player.position p')
    == THREE.y (Player.position
                  (Player.setMovementFlags Player.new
                     true false false false false))
       + Player.climbSpeed * 0.5.
Proof.
  apply (update_climbs_with_forward_key (fun q => q)
           (Player.setMovementFlags Player.new true false false false false)
           0.5 ladder_world level_camera).
  - left. reflexivity.
  - vm_compute; reflexivity.
  - reflexivity.
  - vm_compute; reflexivity.
  - vm_compute; reflexivity.
  - vm_compute; discriminate.
  - vm_compute; discriminate.
Defined.

(** [takeDamage] with a non-negative armour: the armour absorbed is
    [min(armor, amount * 0.5)] also when the guard [armor > 0] fails. *)
Lemma takeDamage_split (p : Player.t) (amount : Q) :
  0 <= amount ->
  0 <= Player.armor p ->
  Player.armor (Player.takeDamage p amount)
  == Player.armor p - Qmin (Player.armor p) (amount * 0.5) /\
  Player.health (Player.takeDamage p amount)
  == Qmax 0 (Player.health p
             - (amount - Qmin (Player.armor p) (amount * 0.5))).
Proof.
  intros Ha Harm.
  destruct (takeDamage_fields p amount) as (A & H & _). cbv zeta in A, H.
  assert (E : (if JS.gtb (Player.armor p) 0
               then Qmin (Player.armor p) (amount * 0.5) else 0)
              == Qmin (Player.armor p) (amount * 0.5)).
  { destruct (JS.gtb (Player.armor p) 0) eqn:G; [reflexivity|].
    apply gtb_false in G.
    destruct (Q.min_spec (Player.armor p) (amount * 0.5)) as [[_ M]|[L M]];
      rewrite M; lra. }
  split.
  - rewrite A, E. reflexivity.
  - rewrite H. apply Q.max_compat; [reflexivity|]. rewrite E. reflexivity.
Qed.

(** X19: Damage is split between armour and health and none of it is lost: for
    [amount >= 0] and a non-negative armour, the armour gives up at most
    half of [amount] and never more than it holds, the health loses at most
    [amount], and as long as the health covers the amount the two together
    go down by exactly [amount]. *)
Theorem takeDamage_accounts_for_the_amount :
  forall (p : Player.t) (amount : Q),
    0 <= amount ->
    0 <= Player.armor p ->
    0 <= Player.health p ->
    let p' := Player.takeDamage p amount in
    0 <= Player.armor p - Player.armor p' /\
    Player.armor p - Player.armor p' <= amount * 0.5 /\
    0 <= Player.armor p' /\
    0 <= Player.health p - Player.health p' /\
    Player.health p - Player.health p' <= amount /\
    (amount <= Player.health p ->
     Player.health p' + Player.armor p'
     == Player.health p + Player.armor p - amount).
Proof.
  intros p amount Ha Harm Hh p'.
  destruct (takeDamage_split p amount Ha Harm) as (A & H).
  fold p' in A, H.
  set (absorbed := Qmin (Player.armor p) (amount * 0.5)) in *.
  assert (K0 : 0 <= absorbed)
    by (apply Qmin_glb; [exact Harm | lra]).
  pose proof (Qmin_le_l (Player.armor p) (amount * 0.5)) as K1.
  pose proof (Qmin_le_r (Player.armor p) (amount * 0.5)) as K2.
  fold absorbed in K1, K2.
  assert (Hmax : Player.health p' <= Player.health p /\
                 Player.health p - amount <= Player.health p' /\
                 (amount <= Player.health p ->
                  Player.health p' == Player.health p - (amount - absorbed))).
  { rewrite H.
    destruct (Q.max_spec 0 (Player.health p - (amount - absorbed)))
      as [[L M]|[L M]]; rewrite M; repeat split; intros; lra. }
  destruct Hmax as (M1 & M2 & M3).
  rewrite A. repeat split; lra.
Qed.

Lemma takeDamage_accounts_for_the_amount_witness :
  let p := Player.addArmor Player.new 10 in
  let p' := Player.takeDamage p 60 in
  0 <= Player.armor p - Player.armor p' /\
  Player.armor p - Player.armor p' <= 60 * 0.5 /\
  0 <= Player.armor p' /\
  0 <= Player.health p - Player.health p' /\
  Player.health p - Player.health p' <= 60 /\
  (60 <= Player.health p ->
   Player.health p' + Player.armor p'
   == Player.health p + Player.armor p - 60).
Proof.
  apply (takeDamage_accounts_for_the_amount (Player.addArmor Player.new 10) 60);
    vm_compute; discriminate.
Defined.

(** ** Game: the frame loop *)








(** ** MiniMap and UI *)

Lemma sqrt_gt_compat (a a' b b' : Q) :
  a == a' -> b == b' -> JS.sqrt_gt a b = JS.sqrt_gt a' b'.
Proof.
  intros Ea Eb. unfold JS.sqrt_gt.
  assert (L : forall x x' y y', x == x' -> y == y' ->
                JS.ltb x y = JS.ltb x' y').
  { intros x x' y y' Ex Ey. destruct (JS.ltb x' y') eqn:G.
    - apply ltb_true. apply ltb_true in G. rewrite Ex, Ey. exact G.
    - apply ltb_false. apply ltb_false in G. rewrite Ex, Ey. exact G. }
  rewrite (L b b' 0 0 Eb (Qeq_refl 0)).
  rewrite (L (b * b) (b' * b') a a'); [reflexivity | | exact Ea].
  rewrite Eb. reflexivity.
Qed.

(** X24: The mini-map tells the truth about the storm: the circle is drawn
    around the middle of the canvas with the storm's radius, and the player
    indicator lies outside that circle exactly when [Storm.update] counts
    the player as outside the zone. *)
Theorem minimap_agrees_with_storm :
  forall (storm : Storm.t) (playerPos : THREE.Vector3),
    Storm.center storm = THREE.mkV2 0 0 ->
    exists (c : THREE.Vector2) (r : Q),
      MiniMap.stormCircle MiniMap.new storm = Some (c, r) /\
      THREE.x2 c == 100 /\
      THREE.y2 c == 100 /\
      r == Storm.radius storm /\
      JS.sqrt_gt
        (THREE.distanceToSquared
           (MiniMap.playerIndicator MiniMap.new playerPos) c) r
      = Storm.isOutsideStorm storm playerPos.
Proof.
  intros storm playerPos Hc.
  unfold MiniMap.stormCircle, MiniMap.new, Storm.getRadius.
  cbn [MiniMap.worldSize MiniMap.canvasWidth MiniMap.canvasHeight].
  rewrite div_defined by discriminate. cbn [JS.bind].
  eexists; eexists. split; [reflexivity|].
  assert (Hr : Storm.radius storm / 200 * 200 == Storm.radius storm)
    by (field).
  split; [reflexivity|]. split; [reflexivity|]. split; [exact Hr|].
  unfold Storm.isOutsideStorm. rewrite Hc.
  apply sqrt_gt_compat; [|exact Hr].
  unfold THREE.distanceToSquared, MiniMap.playerIndicator. cbn. field.
Qed.

Lemma minimap_agrees_with_storm_witness :
  exists (c : THREE.Vector2) (r : Q),
    MiniMap.stormCircle MiniMap.new Storm.new = Some (c, r) /\
    THREE.x2 c == 100 /\
    THREE.y2 c == 100 /\
    r == Storm.radius Storm.new /\
    JS.sqrt_gt
      (THREE.distanceToSquared
         (MiniMap.playerIndicator MiniMap.new (THREE.mkV3 30 2 30)) c) r
    = Storm.isOutsideStorm Storm.new (THREE.mkV3 30 2 30).
Proof.
  apply (minimap_agrees_with_storm Storm.new (THREE.mkV3 30 2 30)).
  reflexivity.
Defined.

(** X25: The storm timer of the HUD rounds up: the seconds shown are the least
    whole number not below the time remaining, so a positive time is never
    shown as 0, and the warning is on exactly when at most 10 seconds
    remain. *)
Theorem storm_timer_display :
  forall storm : Storm.t,
    inject_Z (UI.stormTimerSeconds storm) - 1 < Storm.timeRemaining storm /\
    Storm.timeRemaining storm <= inject_Z (UI.stormTimerSeconds storm) /\
    (0 < Storm.timeRemaining storm -> (1 <= UI.stormTimerSeconds storm)%Z) /\
    (UI.stormTimerWarning storm = true <-> Storm.timeRemaining storm <= 10).
Proof.
  intros storm. unfold UI.stormTimerWarning, UI.stormTimerSeconds,
    Storm.getTimeRemaining.
  set (t := Storm.timeRemaining storm).
  pose proof (Qle_ceiling t) as Hup.
  pose proof (Qceiling_lt t) as Hlo.
  assert (Hlo' : inject_Z (Qceiling t) - 1 < t).
  { replace (Qceiling t) with ((Qceiling t - 1) + 1)%Z at 1 by lia.
    rewrite inject_Z_plus. change (inject_Z 1) with 1. lra. }
  split; [exact Hlo'|]. split; [exact Hup|]. split.
  - intros Hpos.
    assert (H : inject_Z 0 < inject_Z (Qceiling t))
      by (change (inject_Z 0) with 0; lra).
    rewrite <- Zlt_Qlt in H. lia.
  - rewrite Z.leb_le. split.
    + intros H. rewrite Zle_Qle in H. change (inject_Z 10) with 10 in H. lra.
    + intros H.
      assert (K : inject_Z (Qceiling t - 1) < inject_Z 10)
        by (change (inject_Z 10) with 10; lra).
      rewrite <- Zlt_Qlt in K. lia.
Qed.

(** ** Player: the weapon that is shown *)














(** ** Further edge behaviour *)

(** X6: A shrink phase can end short of its target.  If the last frame of a
    shrink phase is shorter than the time then remaining and the next frame
    runs the timer out, the storm starts its pause with a radius still
    above the target: the frame that ends the phase does not shrink. *)
Theorem shrink_phase_can_fall_short :
  forall (s : Storm.t) (delta1 delta2 : Q) (pos1 pos2 : THREE.Vector3),
    Storm.phase s = Storm.shrinking ->
    Storm.targetRadius s < Storm.radius s ->
    0 <= delta1 ->
    delta1 < Storm.timeRemaining s - delta1 ->
    Storm.timeRemaining s - delta1 <= delta2 ->
    exists s1 d1 s2 d2,
      Storm.update s delta1 pos1 = Some (s1, d1) /\
      Storm.update s1 delta2 pos2 = Some (s2, d2) /\
      Storm.phase s2 = Storm.paused /\
      Storm.targetRadius s2 = Storm.targetRadius s /\
      Storm.targetRadius s2 < Storm.radius s2.
Proof.
  intros s delta1 delta2 pos1 pos2 Hph Hgap Hd1 Hshort Hout.
  set (tr1 := Storm.timeRemaining s - delta1) in *.
  assert (Htr : 0 < tr1) by lra.
  assert (T1 : Storm.tick_phase s delta1
               = Storm.mk (Storm.radius s) (Storm.targetRadius s)
                   (Storm.center s) (Storm.config s) (Storm.phase s) tr1
                   (Storm.nextPhaseTime s)).
  { unfold Storm.tick_phase. fold tr1.
    apply leb_false in Htr. rewrite Htr. reflexivity. }
  set (r := Storm.radius s) in *. set (t := Storm.targetRadius s) in *.
  set (r1 := Qmax (r - delta1 * ((r - t) / tr1)) t).
  assert (Hr1 : t < r1).
  { assert (E : r - delta1 * ((r - t) / tr1) - t
                == (r - t) * ((tr1 - delta1) / tr1)) by (field; lra).
    assert (P : 0 < (tr1 - delta1) / tr1).
    { apply Qlt_shift_div_l; lra. }
    assert (P2 : 0 < (r - t) * ((tr1 - delta1) / tr1))
      by (apply Qmult_lt_0_compat; lra).
    pose proof (Qmax_ge_l (r - delta1 * ((r - t) / tr1)) t). subst r1. lra. }
  set (s1 := Storm.mk r1 t (Storm.center s) (Storm.config s) Storm.shrinking
               tr1 (Storm.nextPhaseTime s)).
  assert (U1 : Storm.shrink (Storm.tick_phase s delta1) delta1 = Some s1).
  { rewrite T1. unfold Storm.shrink. cbn [Storm.phase]. rewrite Hph.
    cbn [Storm.radius Storm.targetRadius Storm.timeRemaining].
    rewrite div_defined by lra. reflexivity. }
  assert (T2 : Storm.tick_phase s1 delta2
               = Storm.mk r1 t (Storm.center s) (Storm.config s) Storm.paused
                   (Storm.pauseDuration (Storm.config s))
                   (Storm.pauseDuration (Storm.config s))).
  { unfold Storm.tick_phase. subst s1. cbn.
    assert (L : JS.leb (tr1 - delta2) 0 = true) by (apply leb_true; lra).
    rewrite L. reflexivity. }
  eexists s1, _, _, _.
  split; [unfold Storm.update; rewrite U1; reflexivity|].
  split; [unfold Storm.update; rewrite T2; reflexivity|].
  cbn. repeat split; try reflexivity. exact Hr1.
Qed.

Lemma shrink_phase_can_fall_short_witness :
  exists s1 d1 s2 d2,
    Storm.update (Storm.mk 200 140 (THREE.mkV2 0 0) Storm.defaultConfig
                    Storm.shrinking 60 60) 1 (THREE.mkV3 0 0 0)
    = Some (s1, d1) /\
    Storm.update s1 59 (THREE.mkV3 0 0 0) = Some (s2, d2) /\
    Storm.phase s2 = Storm.paused /\
    Storm.targetRadius s2
    = Storm.targetRadius
        (Storm.mk 200 140 (THREE.mkV2 0 0) Storm.defaultConfig
           Storm.shrinking 60 60) /\
    Storm.targetRadius s2 < Storm.radius s2.
Proof.
  apply (shrink_phase_can_fall_short
           (Storm.mk 200 140 (THREE.mkV2 0 0) Storm.defaultConfig
              Storm.shrinking 60 60)
           1 59 (THREE.mkV3 0 0 0) (THREE.mkV3 0 0 0));
    vm_compute; first [reflexivity | discriminate].
Defined.

Lemma update_lastShotTime_grows (w : Weapon.t) (delta : Q) :
  Weapon.isReloading w = false ->
  0 <= delta ->
  Weapon.isReloading (Weapon.update w delta) = false /\
  Weapon.shootingInterval (Weapon.update w delta) = Weapon.shootingInterval w /\
  Weapon.lastShotTime w <= Weapon.lastShotTime (Weapon.update w delta).
Proof.
  intros Hrel Hd. unfold Weapon.update, Weapon.update_reload. rewrite Hrel.
  destruct (update_flash_frame w delta) as (_ & _ & _ & Hl).
  split; [rewrite Hl; exact Hrel|].
  unfold Weapon.update_flash.
  destruct (Weapon.muzzleFlash w) as [[|]|]; try (split; [reflexivity|lra]).
  destruct (JS.gtb _ _).
  - match goal with
    | |- context [Weapon.set_flash_visible ?a false] =>
        destruct (set_flash_visible_frame a false)
          as (_ & _ & _ & _ & H1 & H2 & _)
    end.
    rewrite H1, H2. cbn. split; [reflexivity | lra].
  - cbn. split; [reflexivity | lra].
Qed.

Lemma weapon_updates_lastShotTime_grows (deltas : list Q) (v : Weapon.t) :
  Forall (fun d => 0 <= d) deltas ->
  Weapon.isReloading v = false ->
  Weapon.isReloading (weapon_updates v deltas) = false /\
  Weapon.shootingInterval (weapon_updates v deltas)
  = Weapon.shootingInterval v /\
  Weapon.lastShotTime v <= Weapon.lastShotTime (weapon_updates v deltas).
Proof.
  unfold weapon_updates. intros Hall. revert v.
  induction Hall as [|d rest Hd _ IH]; intros v Hv; cbn.
  - repeat split; try assumption. apply Qle_refl.
  - destruct (update_lastShotTime_grows v d Hv Hd) as (A & B & C).
    destruct (IH (Weapon.update v d) A) as (A' & B' & C').
    repeat split; [exact A' | congruence | lra].
Qed.

(** X13: The fire-rate limit: after a shot fired at clock time [t1], and any
    number of [update]s with non-negative deltas, a shot fires at [t2] only
    if at least the shooting interval [1 / fireRate] has passed. *)
Theorem shots_are_an_interval_apart :
  forall (w : Weapon.t) (t1 t2 interval : Q) (hits : list Weapon.Hit)
         (deltas : list Q),
    Weapon.fires w t1 = true ->
    Weapon.shootingInterval w = Some interval ->
    Forall (fun d => 0 <= d) deltas ->
    Weapon.fires
      (weapon_updates (fst (Weapon.shoot w t1 hits)) deltas) t2 = true ->
    interval <= t2 - t1.
Proof.
  intros w t1 t2 interval hits deltas F1 Hint Hall F2.
  destruct (shoot_fired w t1 hits F1) as (_ & _ & Hrel & Hlast & _ & Hi).
  set (w1 := fst (Weapon.shoot w t1 hits)) in *.
  destruct (weapon_updates_lastShotTime_grows deltas w1 Hall Hrel)
    as (_ & B & C).
  unfold Weapon.fires, Weapon.inCooldown in F2.
  apply andb_true_iff in F2. destruct F2 as (_ & F2).
  rewrite B, Hi, Hint in F2.
  apply negb_true_iff, ltb_false in F2. rewrite Hlast in C. lra.
Qed.

Lemma shots_are_an_interval_apart_witness :
  1 / 3 <= 92 / 10 - 87 / 10.
Proof.
  apply (shots_are_an_interval_apart
           (Weapon.init (Weapon.new Player.pistol) true)
           (87 / 10) (92 / 10) (1 / 3) [Weapon.mkHit false] [0.1; 0.1]);
    try (vm_compute; reflexivity).
  repeat constructor; vm_compute; discriminate.
Defined.

(** X23: While the pointer is not locked the game stands still: keys, mouse
    buttons and frames change nothing; only locking the pointer does. *)
Theorem game_is_frozen_while_unlocked :
  forall (Math_sqrt : Q -> Q) (g : Game.t) (e : GameEvent),
    Game.isGameRunning g = false ->
    e <> EvLock ->
    game_event Math_sqrt g e = Some g.
Proof.
  intros Math_sqrt g e Hrun Hne.
  destruct g as [p s running]. cbn in Hrun. subst running.
  destruct e as [| |button now hits|code|code|delta world camera];
    cbn; try reflexivity.
  contradiction Hne. reflexivity.
Qed.

Lemma game_is_frozen_while_unlocked_witness :
  game_event (fun q => q) (Game.init (true, true, true))
    (EvFrame 45 empty_world level_camera)
  = Some (Game.init (true, true, true)).
Proof.
  apply (game_is_frozen_while_unlocked (fun q => q)
           (Game.init (true, true, true))
           (EvFrame 45 empty_world level_camera)).
  - reflexivity.
  - discriminate.
Defined.

(** X26: The health bar of the HUD: for a player whose health is within
    [0, maxHealth] and whose [maxHealth] is positive the width is defined
    and between 0 and 100 percent; the bar has the colour [#ff9d3e] between
    30 (excluded) and 60 percent and [#ff3e3e] both above 60 and at or
    below 30. *)
Theorem health_bar_display :
  forall p : Player.t,
    0 <= Player.health p ->
    Player.health p <= Player.maxHealth p ->
    0 < Player.maxHealth p ->
    exists pct,
      UI.healthPercentage p = Some pct /\
      0 <= pct /\ pct <= 100 /\
      pct * Player.maxHealth p == Player.health p * 100 /\
      (30 < pct /\ pct <= 60 -> UI.healthColor pct = "#ff9d3e"%string) /\
      (pct <= 30 \/ 60 < pct -> UI.healthColor pct = "#ff3e3e"%string).
Proof.
  intros p H0 H1 Hm.
  unfold UI.healthPercentage, Player.getHealth, Player.getMaxHealth.
  rewrite div_defined by lra. cbn [JS.bind].
  eexists. split; [reflexivity|].
  set (h := Player.health p) in *. set (m := Player.maxHealth p) in *.
  assert (Q0 : 0 <= h / m) by (apply quotient_nonneg; assumption).
  assert (Q1 : h / m <= 1) by (apply Qle_shift_div_r; lra).
  split; [lra|]. split; [lra|]. split; [field; lra|].
  unfold UI.healthColor. split.
  - intros (A & B).
    assert (G1 : JS.gtb (h / m * 100) 60 = false) by (apply gtb_false; lra).
    assert (G2 : JS.gtb (h / m * 100) 30 = true) by (apply gtb_true; lra).
    rewrite G1, G2. reflexivity.
  - intros [A | A].
    + assert (G1 : JS.gtb (h / m * 100) 60 = false) by (apply gtb_false; lra).
      assert (G2 : JS.gtb (h / m * 100) 30 = false)
        by (apply gtb_false; lra).
      rewrite G1, G2. reflexivity.
    + assert (G1 : JS.gtb (h / m * 100) 60 = true) by (apply gtb_true; lra).
      rewrite G1. reflexivity.
Qed.

Lemma health_bar_display_witness :
  exists pct,
    UI.healthPercentage (Player.takeDamage Player.new 75) = Some pct /\
    0 <= pct /\ pct <= 100 /\
    pct * Player.maxHealth (Player.takeDamage Player.new 75)
    == Player.health (Player.takeDamage Player.new 75) * 100 /\
    (30 < pct /\ pct <= 60 -> UI.healthColor pct = "#ff9d3e"%string) /\
    (pct <= 30 \/ 60 < pct -> UI.healthColor pct = "#ff3e3e"%string).
Proof.
  apply (health_bar_display (Player.takeDamage Player.new 75));
    vm_compute; first [reflexivity | discriminate].
Defined.
